(** * liblaunchpad.h: the protocol codec and the device session

    A shallow embedding of [liblaunchpad.h], the header-only C99 layer
    over Novation's Launchpad S, and the properties of its wire format,
    of its coordinate and colour arithmetic and of its session functions.

    Conventions of the embedding.
    - C integers are [Z]; a conversion to a narrower or unsigned type is
      written out ([uchar], [to_size_t], [to_int]).
    - A pointer argument is [NULL] or [ADDR], the address of the one
      object of that type the caller owns; the objects live in [memory].
    - The ALSA raw MIDI transport is outside the library.  It is a record
      of functions [Alsa] that answer each call from the calls made so
      far, and every call is appended to the [trace] of the memory. *)

From Stdlib Require Import String ZArith List Bool Lia.
Import ListNotations.
Open Scope Z_scope.

(** ** Fixed-width integers *)

(** Conversion of an [int] to [unsigned char]. *)
Definition uchar (z : Z) : Z := z mod 256.

(** Conversion of a [ssize_t] to [size_t] (64 bits). *)
Definition to_size_t (z : Z) : Z := z mod 2 ^ 64.

(** Conversion of a [ssize_t] to [int] (32 bits, two's complement): the
    value is reduced modulo [2 ^ 32] into the range of [int]. *)
Definition to_int (z : Z) : Z := (z + 2 ^ 31) mod 2 ^ 32 - 2 ^ 31.

(** The range of [int]. *)
Definition int_range (z : Z) : Prop := - 2 ^ 31 <= z < 2 ^ 31.

(** The range of [ssize_t], the return type of the transport's write. *)
Definition ssize_range (z : Z) : Prop := - 2 ^ 63 <= z < 2 ^ 63.

(** ** Constants of the header *)

Definition LP_OK                      : Z := 0.
Definition LP_ERROR_LP_NULL           : Z := -1.
Definition LP_ERROR_OPENING_LAUNCHPAD : Z := -2.
Definition LP_ERROR_UNINITIALIZED     : Z := -3.
Definition LP_ERROR_MIDI_WRITE        : Z := -4.
Definition LP_ERROR_MIDI_DRAIN        : Z := -5.
Definition LP_ERROR_MIDI_CLOSE        : Z := -6.
Definition LP_ERROR_ARGUMENT_NULL     : Z := -7.
Definition LP_ERROR_MIDI_READ         : Z := -8.

Definition LP_ROWS : Z := 8.
Definition LP_COLS : Z := 8.

Definition LP_NOTE_ON  : Z := 0x90.
Definition LP_NOTE_OFF : Z := 0x80.

Definition LP_KEY (row col : Z) : Z := (0x10 * row) + col.

Definition LP_COLOR_FLAG_CLEAR : Z := Z.shiftl 1 2.
Definition LP_COLOR_FLAG_COPY  : Z := Z.shiftl 1 3.

Definition LP_BRIGHTNESS_OFF    : Z := 0.
Definition LP_BRIGHTNESS_LOW    : Z := 1.
Definition LP_BRIGHTNESS_MEDIUM : Z := 2.
Definition LP_BRIGHTNESS_FULL   : Z := 3.

Definition LP_COLOR (green red flags : Z) : Z := (0x10 * green) + red + flags.

Definition LP_COLOR_RED_LOW       := LP_COLOR LP_BRIGHTNESS_OFF LP_BRIGHTNESS_LOW 0.
Definition LP_COLOR_RED_MEDIUM    := LP_COLOR LP_BRIGHTNESS_OFF LP_BRIGHTNESS_MEDIUM 0.
Definition LP_COLOR_RED_FULL      := LP_COLOR LP_BRIGHTNESS_OFF LP_BRIGHTNESS_FULL 0.
Definition LP_COLOR_GREEN_LOW     := LP_COLOR LP_BRIGHTNESS_LOW LP_BRIGHTNESS_OFF 0.
Definition LP_COLOR_GREEN_MEDIUM  := LP_COLOR LP_BRIGHTNESS_MEDIUM LP_BRIGHTNESS_OFF 0.
Definition LP_COLOR_GREEN_FULL    := LP_COLOR LP_BRIGHTNESS_FULL LP_BRIGHTNESS_OFF 0.
Definition LP_COLOR_YELLOW_LOW    := LP_COLOR LP_BRIGHTNESS_LOW LP_BRIGHTNESS_LOW 0.
Definition LP_COLOR_YELLOW_MEDIUM := LP_COLOR LP_BRIGHTNESS_MEDIUM LP_BRIGHTNESS_MEDIUM 0.
Definition LP_COLOR_YELLOW_FULL   := LP_COLOR LP_BRIGHTNESS_FULL LP_BRIGHTNESS_FULL 0.

(** A note: three [unsigned char] fields. *)
Record LPNote := { state : Z; key : Z; color : Z }.

(** The compound literal [(LPNote){ state, key, color }] converts each
    initialiser to [unsigned char]. *)
Definition LP_NOTE (s k c : Z) : LPNote :=
  {| state := uchar s; key := uchar k; color := uchar c |}.

(** [LPEventType].  The field of an [LPEvent] that was never written holds
    any [int] (the demo starts from [{0}]), so the tag is kept as its
    number. *)
Definition LP_EVENT_PRESSED          : Z := 1.
Definition LP_EVENT_RELEASED         : Z := 2.
Definition LP_EVENT_AUTOMAP_PRESSED  : Z := 3.
Definition LP_EVENT_AUTOMAP_RELEASED : Z := 4.

Record LPEvent := { type : Z; note_x : Z; note_y : Z }.

Definition LP_DOUBLE_BUFFERING_DISPLAY_0 : Z := 0.
Definition LP_DOUBLE_BUFFERING_DISPLAY_1 : Z := 1.
Definition LP_DOUBLE_BUFFERING_UPDATE_0  : Z := 0.
Definition LP_DOUBLE_BUFFERING_UPDATE_1  : Z := Z.shiftl 1 2.
Definition LP_DOUBLE_BUFFERING_FLASH     : Z := Z.shiftl 1 3.
Definition LP_DOUBLE_BUFFERING_COPY      : Z := Z.shiftl 1 4.

(** A non-null [snd_rawmidi_t *]. *)
Definition handle := Z.

(** The Launchpad S context; [None] is a null channel pointer. *)
Record LP := {
  midi_in      : option handle;
  midi_out     : option handle;
  current_buff : Z
}.

(** ** The transport *)

(** From <alsa/rawmidi.h> and <errno.h>. *)
Definition SND_RAWMIDI_NONBLOCK : Z := 0x0002.
Definition EAGAIN : Z := 11.

(** One call of the library into ALSA, with its arguments. *)
Inductive call :=
| Open  (devicename : string) (mode : Z)
| Write (h : handle) (buf : list Z)
| Drain (h : handle)
| Close (h : handle)
| Read  (h : handle) (size : Z).

Definition history := list call.

(** What ALSA answers.  Each function sees the calls made before.
    - [snd_rawmidi_open] gets the two channel pointers of the context as
      they are and gives the return code and what it leaves in them;
    - [snd_rawmidi_write] gives the [ssize_t] count or error;
    - [snd_rawmidi_read] gives the return code and the contents of the
      buffer it was handed, after the call. *)
Record Alsa := {
  snd_rawmidi_open  : history -> option handle -> option handle -> string -> Z ->
                      Z * option handle * option handle;
  snd_rawmidi_write : history -> handle -> list Z -> Z;
  snd_rawmidi_drain : history -> handle -> Z;
  snd_rawmidi_close : history -> handle -> Z;
  snd_rawmidi_read  : history -> handle -> Z -> Z * list Z
}.

(** ** Memory and the state monad *)

Inductive pointer := NULL | ADDR.

Record memory := {
  lp_obj    : LP;
  event_obj : LPEvent;
  trace     : history
}.

Definition M (A : Type) : Type := memory -> A * memory.

Definition ret {A} (a : A) : M A := fun m => (a, m).

Definition bind {A B} (c : M A) (k : A -> M B) : M B :=
  fun m => let (a, m') := c m in k a m'.

Declare Scope lp_scope.
Delimit Scope lp_scope with lp.
Notation "x <- c ;; k" := (bind c (fun x => k))
  (at level 61, c at next level, right associativity) : lp_scope.
Notation "c ;;; k" := (bind c (fun _ => k))
  (at level 61, right associativity) : lp_scope.
Open Scope lp_scope.

Definition get_lp : M LP := fun m => (lp_obj m, m).

Definition set_current_buff (v : Z) : M unit := fun m =>
  (tt, {| lp_obj := {| midi_in := midi_in (lp_obj m);
                       midi_out := midi_out (lp_obj m);
                       current_buff := v |};
          event_obj := event_obj m;
          trace := trace m |}).

Definition set_channels (i o : option handle) : M unit := fun m =>
  (tt, {| lp_obj := {| midi_in := i;
                       midi_out := o;
                       current_buff := current_buff (lp_obj m) |};
          event_obj := event_obj m;
          trace := trace m |}).

Definition set_event (e : LPEvent) : M unit := fun m =>
  (tt, {| lp_obj := lp_obj m; event_obj := e; trace := trace m |}).

Definition get_event : M LPEvent := fun m => (event_obj m, m).

Definition record (c : call) : M unit := fun m =>
  (tt, {| lp_obj := lp_obj m; event_obj := event_obj m;
          trace := trace m ++ [c] |}).

(** A counted [for (int i = lo; i < hi; ++i)] whose body does not touch
    [i]. *)
Fixpoint for_up {S : Type} (n : nat) (i : Z) (body : Z -> S -> S) (s : S) : S :=
  match n with
  | O => s
  | Datatypes.S k => for_up k (i + 1) body (body i s)
  end.

Definition for_range {S : Type} (lo hi : Z) (body : Z -> S -> S) (s : S) : S :=
  for_up (Z.to_nat (hi - lo)) lo body s.

(** [memcpy(dst + off, src, sizeof src)] inside the bounds of [dst]. *)
Definition memcpy (dst : list Z) (off : Z) (src : list Z) : list Z :=
  firstn (Z.to_nat off) dst ++ src
    ++ skipn (Z.to_nat off + length src) dst.

(** [a[i]] of an array of notes. *)
Definition note_at (notes : list LPNote) (i : Z) : LPNote :=
  nth (Z.to_nat i) notes {| state := 0; key := 0; color := 0 |}.

(** [buf[i]] of an [unsigned char] buffer. *)
Definition byte_at (buf : list Z) (i : nat) : Z := uchar (nth i buf 0).

Definition is_addr (p : pointer) : bool :=
  match p with NULL => false | ADDR => true end.

(** ** The functions of the library *)

Section Launchpad.

Variable alsa : Alsa.

(** The five ALSA entry points, as steps of the monad. *)

Definition rawmidi_open (devicename : string) (mode : Z) : M Z :=
  fun m =>
    let '(rc, i, o) :=
      snd_rawmidi_open alsa (trace m) (midi_in (lp_obj m)) (midi_out (lp_obj m))
                       devicename mode in
    (set_channels i o ;;; record (Open devicename mode) ;;; ret rc) m.

Definition rawmidi_write (h : handle) (buf : list Z) : M Z :=
  fun m => (record (Write h buf) ;;; ret (snd_rawmidi_write alsa (trace m) h buf)) m.

Definition rawmidi_drain (h : handle) : M Z :=
  fun m => (record (Drain h) ;;; ret (snd_rawmidi_drain alsa (trace m) h)) m.

Definition rawmidi_close (h : handle) : M Z :=
  fun m => (record (Close h) ;;; ret (snd_rawmidi_close alsa (trace m) h)) m.

Definition rawmidi_read (h : handle) (size : Z) : M (Z * list Z) :=
  fun m => (record (Read h size) ;;; ret (snd_rawmidi_read alsa (trace m) h size)) m.

Definition lp_open (lp : pointer) (devicename : string) (nonblocking : bool)
  : M Z :=
  match lp with
  | NULL => ret LP_ERROR_LP_NULL
  | ADDR =>
    let flags := 0 in
    let flags := if nonblocking then Z.lor flags SND_RAWMIDI_NONBLOCK else flags in
    rc <- rawmidi_open devicename flags ;;
    if rc <? 0 then ret LP_ERROR_OPENING_LAUNCHPAD
    else ret LP_OK
  end.

Definition lp_reset (lp : pointer) : M Z :=
  match lp with
  | NULL => ret LP_ERROR_LP_NULL
  | ADDR =>
    s <- get_lp ;;
    match midi_out s with
    | None => ret LP_ERROR_UNINITIALIZED
    | Some out =>
      let msg_buff := [uchar 0xB0; uchar 0; uchar 0] in
      bytes <- rawmidi_write out msg_buff ;;
      if negb (to_size_t bytes =? 3) then ret LP_ERROR_MIDI_WRITE
      else
        rc <- rawmidi_drain out ;;
        if rc <? 0 then ret LP_ERROR_MIDI_DRAIN
        else ret LP_OK
    end
  end.

Definition lp_close (lp : pointer) : M Z :=
  match lp with
  | NULL => ret LP_OK
  | ADDR =>
    s <- get_lp ;;
    rc_in <- match midi_in s with
             | Some inp => rawmidi_close inp
             | None => ret 0
             end ;;
    if rc_in <? 0 then ret LP_ERROR_MIDI_CLOSE
    else
      rc_out <- match midi_out s with
                | Some out => rawmidi_close out
                | None => ret 0
                end ;;
      if rc_out <? 0 then ret LP_ERROR_MIDI_CLOSE
      else ret LP_OK
  end.

Definition lp_set_note (lp : pointer) (note : LPNote) : M Z :=
  match lp with
  | NULL => ret LP_ERROR_LP_NULL
  | ADDR =>
    s <- get_lp ;;
    match midi_out s with
    | None => ret LP_ERROR_UNINITIALIZED
    | Some out =>
      let msg_buff := [state note; key note; color note] in
      bytes <- rawmidi_write out msg_buff ;;
      if negb (to_size_t bytes =? 3) then ret LP_ERROR_MIDI_WRITE
      else
        rc <- rawmidi_drain out ;;
        if rc <? 0 then ret LP_ERROR_MIDI_DRAIN
        else ret LP_OK
    end
  end.

(** The two loops of [lp_set_notes] over [msg_buff]; the source reads the
    note at [i * LP_ROWS + j] and writes at [3 * (i * LP_COLS + j)]. *)
Definition fill_msg_buff (notes : list LPNote) (msg_buff : list Z) : list Z :=
  for_range 0 LP_ROWS (fun i msg_buff =>
    for_range 0 LP_COLS (fun j msg_buff =>
      let command_buff := [state (note_at notes (i * LP_ROWS + j));
                           key   (note_at notes (i * LP_ROWS + j));
                           color (note_at notes (i * LP_ROWS + j))] in
      memcpy msg_buff (3 * (i * LP_COLS + j)) command_buff) msg_buff) msg_buff.

(** [notes] is [None] for a null array.  [msg_buff] starts as 192 bytes
    of the stack; every one of them is overwritten by the loops
    ([fill_msg_buff_layout] below), so zeros stand for them. *)
Definition lp_set_notes (lp : pointer) (notes : option (list LPNote)) : M Z :=
  match lp with
  | NULL => ret LP_ERROR_LP_NULL
  | ADDR =>
    s <- get_lp ;;
    match midi_out s with
    | None => ret LP_ERROR_UNINITIALIZED
    | Some out =>
      match notes with
      | None => ret LP_ERROR_ARGUMENT_NULL
      | Some notes =>
        let msg_buff := repeat 0 (Z.to_nat (3 * LP_ROWS * LP_COLS)) in
        let msg_buff := fill_msg_buff notes msg_buff in
        bytes <- rawmidi_write out msg_buff ;;
        if negb (to_size_t bytes =? 3 * LP_ROWS * LP_COLS) then ret LP_ERROR_MIDI_WRITE
        else
          rc <- rawmidi_drain out ;;
          if rc <? 0 then ret LP_ERROR_MIDI_DRAIN
          else ret LP_OK
      end
    end
  end.

(** [flags] has type [LPDoubleBufferingFlag], an [unsigned char]. *)
Definition lp_set_double_buffering_flags (lp : pointer) (flags : Z) : M Z :=
  match lp with
  | NULL => ret LP_ERROR_LP_NULL
  | ADDR =>
    s <- get_lp ;;
    match midi_out s with
    | None => ret LP_ERROR_UNINITIALIZED
    | Some out =>
      let msg_buff := [uchar 0xB0; uchar 0; uchar (flags + 0x20)] in
      bytes <- rawmidi_write out msg_buff ;;
      if negb (to_size_t bytes =? 3) then ret LP_ERROR_MIDI_WRITE
      else
        rc <- rawmidi_drain out ;;
        if rc <? 0 then ret LP_ERROR_MIDI_DRAIN
        else ret LP_OK
    end
  end.

Definition lp_swap_buffers (lp : pointer) : M Z :=
  match lp with
  | NULL => ret LP_ERROR_LP_NULL
  | ADDR =>
    s <- get_lp ;;
    match midi_out s with
    | None => ret LP_ERROR_UNINITIALIZED
    | Some _ =>
      if current_buff s =? 0 then
        set_current_buff 1 ;;;
        lp_set_double_buffering_flags lp
          (uchar (Z.lor (Z.lor LP_DOUBLE_BUFFERING_DISPLAY_1
                               LP_DOUBLE_BUFFERING_UPDATE_0)
                        LP_DOUBLE_BUFFERING_COPY))
      else
        set_current_buff 0 ;;;
        lp_set_double_buffering_flags lp
          (uchar (Z.lor (Z.lor LP_DOUBLE_BUFFERING_DISPLAY_0
                               LP_DOUBLE_BUFFERING_UPDATE_1)
                        LP_DOUBLE_BUFFERING_COPY))
    end
  end.

(** [err] is the [int] that receives the [ssize_t] of the read, hence
    the conversion [to_int]. *)
Definition lp_check_event (lp event : pointer) : M Z :=
  match lp with
  | NULL => ret LP_ERROR_LP_NULL
  | ADDR =>
    s <- get_lp ;;
    match midi_in s with
    | None => ret LP_ERROR_UNINITIALIZED
    | Some inp =>
      r <- rawmidi_read inp 3 ;;
      let err := to_int (fst r) in
      let event_buff := snd r in
      if err =? - EAGAIN then ret 0
      else if err <? 0 then ret LP_ERROR_MIDI_READ
      else if err =? 3 then
        let status   := byte_at event_buff 0 in
        let note     := byte_at event_buff 1 in
        let velocity := byte_at event_buff 2 in
        (if is_addr event && (status =? 0x90) then
           set_event
             {| type := if velocity >? 0 then LP_EVENT_PRESSED
                        else LP_EVENT_RELEASED;
                note_x := uchar (Z.rem (note - (Z.quot note 16) * 16) 9);
                note_y := uchar (Z.quot note 16) |}
         else if is_addr event && (status =? 0xB0) then
           set_event
             {| type := if velocity >? 0 then LP_EVENT_AUTOMAP_PRESSED
                        else LP_EVENT_AUTOMAP_RELEASED;
                note_x := uchar (note - 0x68);
                note_y := uchar 0 |}
         else ret tt) ;;;
        ret 1
      else ret 0
    end
  end.

Definition lp_enable_flashing (lp : pointer) : M Z :=
  match lp with
  | NULL => ret LP_ERROR_LP_NULL
  | ADDR =>
    s <- get_lp ;;
    match midi_out s with
    | None => ret LP_ERROR_UNINITIALIZED
    | Some out =>
      let msg_buff := [uchar 0xB0; uchar 0; uchar 0x28] in
      bytes <- rawmidi_write out msg_buff ;;
      if negb (to_size_t bytes =? 3) then ret LP_ERROR_MIDI_WRITE
      else
        rc <- rawmidi_drain out ;;
        if rc <? 0 then ret LP_ERROR_MIDI_DRAIN
        else ret LP_OK
    end
  end.

Definition lp_disable_flashing (lp : pointer) : M Z :=
  match lp with
  | NULL => ret LP_ERROR_LP_NULL
  | ADDR =>
    s <- get_lp ;;
    match midi_out s with
    | None => ret LP_ERROR_UNINITIALIZED
    | Some out =>
      let msg_buff := [uchar 0xB0; uchar 0; uchar 0x21] in
      bytes <- rawmidi_write out msg_buff ;;
      if negb (to_size_t bytes =? 3) then ret LP_ERROR_MIDI_WRITE
      else
        rc <- rawmidi_drain out ;;
        if rc <? 0 then ret LP_ERROR_MIDI_DRAIN
        else ret LP_OK
    end
  end.

End Launchpad.

(** ** Observations on traces and flags *)

(** The byte strings handed to [snd_rawmidi_write], oldest first. *)
Fixpoint writes (t : history) : list (list Z) :=
  match t with
  | [] => []
  | Write _ buf :: t' => buf :: writes t'
  | _ :: t' => writes t'
  end.

(** The handles handed to [snd_rawmidi_close], oldest first. *)
Fixpoint closed (t : history) : list handle :=
  match t with
  | [] => []
  | Close h :: t' => h :: closed t'
  | _ :: t' => closed t'
  end.

(** The message [lp_set_note] builds for a note. *)
Definition note_msg (note : LPNote) : list Z :=
  [state note; key note; color note].

(** The rows of a grid of notes on the wire, one message after the other. *)
Definition grid_msg (notes : list LPNote) : list Z := flat_map note_msg notes.

(** The roles a double-buffering flag byte gives to the buffers. *)
Definition display_buffer (flags : Z) : Z :=
  if Z.land flags LP_DOUBLE_BUFFERING_DISPLAY_1 =? 0 then 0 else 1.

Definition update_buffer (flags : Z) : Z :=
  if Z.land flags LP_DOUBLE_BUFFERING_UPDATE_1 =? 0 then 0 else 1.

Definition copy_set (flags : Z) : bool :=
  negb (Z.land flags LP_DOUBLE_BUFFERING_COPY =? 0).

(** The four ways to combine the two colour flags. *)
Definition color_flag_combinations : list Z :=
  [0; LP_COLOR_FLAG_CLEAR; LP_COLOR_FLAG_COPY;
   Z.lor LP_COLOR_FLAG_CLEAR LP_COLOR_FLAG_COPY].

(** ** Scripted transports *)

(** A device that accepts everything: the open yields the channels 1 (in)
    and 2 (out), a write takes the whole buffer, nothing is ever
    pending on the input. *)
Definition ideal : Alsa := {|
  snd_rawmidi_open  := fun _ _ _ _ _ => (0, Some 1, Some 2);
  snd_rawmidi_write := fun _ _ buf => Z.of_nat (length buf);
  snd_rawmidi_drain := fun _ _ => 0;
  snd_rawmidi_close := fun _ _ => 0;
  snd_rawmidi_read  := fun _ _ _ => (- EAGAIN, [0; 0; 0])
|}.

(** As [ideal], with [rc] and [buf] the outcome of every read. *)
Definition reading (rc : Z) (buf : list Z) : Alsa := {|
  snd_rawmidi_open  := snd_rawmidi_open ideal;
  snd_rawmidi_write := snd_rawmidi_write ideal;
  snd_rawmidi_drain := snd_rawmidi_drain ideal;
  snd_rawmidi_close := snd_rawmidi_close ideal;
  snd_rawmidi_read  := fun _ _ _ => (rc, buf)
|}.

(** A cable from the output to the input: a read delivers, complete,
    the bytes of the latest write, or would block when nothing was
    written yet. *)
Definition loopback : Alsa := {|
  snd_rawmidi_open  := snd_rawmidi_open ideal;
  snd_rawmidi_write := snd_rawmidi_write ideal;
  snd_rawmidi_drain := snd_rawmidi_drain ideal;
  snd_rawmidi_close := snd_rawmidi_close ideal;
  snd_rawmidi_read  := fun t _ _ =>
    match writes t with
    | [] => (- EAGAIN, [0; 0; 0])
    | _ :: _ => (3, last (writes t) [])
    end
|}.

(** As [ideal], with every write reporting [n]. *)
Definition writing (n : Z) : Alsa := {|
  snd_rawmidi_open  := snd_rawmidi_open ideal;
  snd_rawmidi_write := fun _ _ _ => n;
  snd_rawmidi_drain := snd_rawmidi_drain ideal;
  snd_rawmidi_close := snd_rawmidi_close ideal;
  snd_rawmidi_read  := snd_rawmidi_read ideal
|}.

(** As [ideal], but closing the channel [bad] fails with -EBADF. *)
Definition close_failing (bad : handle) : Alsa := {|
  snd_rawmidi_open  := snd_rawmidi_open ideal;
  snd_rawmidi_write := snd_rawmidi_write ideal;
  snd_rawmidi_drain := snd_rawmidi_drain ideal;
  snd_rawmidi_close := fun _ h => if h =? bad then -9 else 0;
  snd_rawmidi_read  := snd_rawmidi_read ideal
|}.

(** An [LP] as [LP lp;] leaves it on the stack, with [cb] in
    [current_buff], next to the demo's [LPEvent event = {0}]. *)
Definition on_stack (cb : Z) : memory := {|
  lp_obj    := {| midi_in := None; midi_out := None; current_buff := cb |};
  event_obj := {| type := 0; note_x := 0; note_y := 0 |};
  trace     := []
|}.

(** An opened session on the channels 1 and 2. *)
Definition opened (cb : Z) : memory := {|
  lp_obj    := {| midi_in := Some 1; midi_out := Some 2; current_buff := cb |};
  event_obj := {| type := 0; note_x := 0; note_y := 0 |};
  trace     := []
|}.

(** The grid the demo starts from: every note off. *)
Definition all_off : list LPNote :=
  flat_map (fun i => map (fun j => LP_NOTE LP_NOTE_OFF (LP_KEY i j) 0)
                         [0; 1; 2; 3; 4; 5; 6; 7])
           [0; 1; 2; 3; 4; 5; 6; 7].

(** As [ideal], with [d] the outcome of every drain. *)
Definition draining (d : Z) : Alsa := {|
  snd_rawmidi_open  := snd_rawmidi_open ideal;
  snd_rawmidi_write := snd_rawmidi_write ideal;
  snd_rawmidi_drain := fun _ _ => d;
  snd_rawmidi_close := snd_rawmidi_close ideal;
  snd_rawmidi_read  := snd_rawmidi_read ideal
|}.

(** A machine without the device: the open fails with -ENOENT and leaves
    both channel pointers null, as alsa-lib does. *)
Definition absent : Alsa := {|
  snd_rawmidi_open  := fun _ _ _ _ _ => (-2, None, None);
  snd_rawmidi_write := snd_rawmidi_write ideal;
  snd_rawmidi_drain := snd_rawmidi_drain ideal;
  snd_rawmidi_close := snd_rawmidi_close ideal;
  snd_rawmidi_read  := snd_rawmidi_read ideal
|}.

(** ** The sending functions as one family *)

(** The six functions that write one message and drain. *)
Inductive command :=
| Reset
| SetNote (note : LPNote)
| SetNotes (notes : list LPNote)
| SetDoubleBufferingFlags (flags : Z)
| EnableFlashing
| DisableFlashing.

Definition run_command (alsa : Alsa) (lp : pointer) (c : command) : M Z :=
  match c with
  | Reset => lp_reset alsa lp
  | SetNote note => lp_set_note alsa lp note
  | SetNotes notes => lp_set_notes alsa lp (Some notes)
  | SetDoubleBufferingFlags flags => lp_set_double_buffering_flags alsa lp flags
  | EnableFlashing => lp_enable_flashing alsa lp
  | DisableFlashing => lp_disable_flashing alsa lp
  end.

(** The bytes each of them builds in its [msg_buff]. *)
Definition message (c : command) : list Z :=
  match c with
  | Reset => [0xB0; 0x00; 0x00]
  | SetNote note => note_msg note
  | SetNotes notes => grid_msg notes
  | SetDoubleBufferingFlags flags => [0xB0; 0x00; uchar (flags + 0x20)]
  | EnableFlashing => [0xB0; 0x00; 0x28]
  | DisableFlashing => [0xB0; 0x00; 0x21]
  end.

(** The count each of them compares the result of the write with:
    [3], and [3 * LP_ROWS * LP_COLS] for the grid. *)
Definition expected (c : command) : Z :=
  match c with
  | SetNotes _ => 3 * LP_ROWS * LP_COLS
  | _ => 3
  end.

(** [lp_set_notes] takes an array of [LP_ROWS * LP_COLS] notes. *)
Definition grid_sized (c : command) : Prop :=
  match c with
  | SetNotes notes => length notes = 64%nat
  | _ => True
  end.

(** The flag bytes that can be built from the [LP_DOUBLE_BUFFERING_]
    constants: no bit outside DISPLAY_1, UPDATE_1, FLASH and COPY. *)
Definition documented_flags (flags : Z) : Prop :=
  Z.land flags
         (Z.lor (Z.lor LP_DOUBLE_BUFFERING_DISPLAY_1 LP_DOUBLE_BUFFERING_UPDATE_1)
                (Z.lor LP_DOUBLE_BUFFERING_FLASH LP_DOUBLE_BUFFERING_COPY))
  = flags.

(** The non-null channels of a context, input first. *)
Definition channels (s : LP) : list handle :=
  match midi_in s with Some i => [i] | None => [] end
  ++ match midi_out s with Some o => [o] | None => [] end.

(** ** The demo (demo.c) *)

(** [notes[i] = v] inside the bounds of the array. *)
Definition note_store (notes : list LPNote) (i : Z) (v : LPNote) : list LPNote :=
  firstn (Z.to_nat i) notes ++ v :: skipn (S (Z.to_nat i)) notes.

(** The loops that set up the grid (demo.c lines 40-42 with NOTE_OFF and
    colour 0, lines 112-114 with NOTE_ON and RED_FULL, and the tests):
    [notes[i * LP_ROWS + j] = LP_NOTE(state, LP_KEY(i,j), color)]. *)
Definition fill_notes (st col : Z) (notes : list LPNote) : list LPNote :=
  for_range 0 LP_ROWS (fun i notes =>
    for_range 0 LP_COLS (fun j notes =>
      note_store notes (i * LP_ROWS + j) (LP_NOTE st (LP_KEY i j) col))
    notes) notes.

(** demo.c line 66: the index of the note a PRESSED event is taken to
    hit, [event.note_y * LP_ROWS + event.note_x]. *)
Definition hit_index (e : LPEvent) : Z := note_y e * LP_ROWS + note_x e.

(** demo.c lines 86-90: a new green note from the [unsigned int random]. *)
Definition spawn (random : Z) (notes : list LPNote) : list LPNote :=
  let random_row := random mod 8 in
  let random_col := (random / 8) mod 8 in
  note_store notes (random_row * LP_COLS + random_col)
             (LP_NOTE LP_NOTE_ON (LP_KEY random_row random_col)
                      LP_COLOR_GREEN_FULL).

(** What the demo relies on between its array and the device: the note
    at index [i * 8 + j] carries the key of row [i], column [j]. *)
Definition keyed (notes : list LPNote) : Prop :=
  length notes = 64%nat /\
  forall i j, 0 <= i <= 7 -> 0 <= j <= 7 ->
    key (note_at notes (i * 8 + j)) = LP_KEY i j.

(** * Properties *)

(** ** Tactics *)

(** Splits a variable known to lie in [0,7] into its eight values. *)
Ltac split_0_7 x :=
  let H := fresh in
  assert (H : x = 0 \/ x = 1 \/ x = 2 \/ x = 3 \/
              x = 4 \/ x = 5 \/ x = 6 \/ x = 7) by lia;
  repeat (destruct H as [H | H]); subst x.

(** Splits a variable known to lie in [0,3] into its four values. *)
Ltac split_0_3 x :=
  let H := fresh in
  assert (H : x = 0 \/ x = 1 \/ x = 2 \/ x = 3) by lia;
  repeat (destruct H as [H | H]); subst x.

(** Unfolds the monad's plumbing, leaving the ALSA answers in place. *)
Ltac run :=
  cbv [bind ret get_lp get_event set_event set_current_buff set_channels record
       rawmidi_open rawmidi_write rawmidi_drain rawmidi_close rawmidi_read
       lp_obj event_obj trace midi_in midi_out current_buff is_addr].

(** ** Coordinate and colour codec *)

Lemma LP_KEY_bounds row col :
  0 <= row <= 7 -> 0 <= col <= 7 -> 0 <= LP_KEY row col <= 127.
Proof. unfold LP_KEY. lia. Qed.

Lemma LP_KEY_row row col :
  0 <= row <= 7 -> 0 <= col <= 7 -> LP_KEY row col / 16 = row.
Proof.
  intros Hr Hc. unfold LP_KEY.
  rewrite Z.mul_comm, Z.div_add_l by lia.
  rewrite Z.div_small by lia. lia.
Qed.

Lemma LP_KEY_col row col :
  0 <= row <= 7 -> 0 <= col <= 7 -> LP_KEY row col mod 16 = col.
Proof.
  intros Hr Hc. unfold LP_KEY.
  rewrite Z.add_comm, Z.mul_comm, Z.mod_add by lia.
  apply Z.mod_small. lia.
Qed.

(** C8. On rows and columns in [0,7], [LP_KEY row col = 16*row + col] lies
    in [0,127], and two pairs with the same key are the same pair. *)
Theorem LP_KEY_injective_in_range row col row' col' :
  0 <= row <= 7 -> 0 <= col <= 7 ->
  0 <= row' <= 7 -> 0 <= col' <= 7 ->
  0 <= LP_KEY row col <= 127 /\
  (LP_KEY row col = LP_KEY row' col' -> row = row' /\ col = col').
Proof.
  intros Hr Hc Hr' Hc'. split.
  - now apply LP_KEY_bounds.
  - intros E. split.
    + rewrite <- (LP_KEY_row row col), <- (LP_KEY_row row' col') by assumption.
      now rewrite E.
    + rewrite <- (LP_KEY_col row col), <- (LP_KEY_col row' col') by assumption.
      now rewrite E.
Qed.

Lemma LP_KEY_injective_in_range_witness :
  0 <= LP_KEY 7 7 <= 127 /\
  (LP_KEY 7 7 = LP_KEY 0 7 -> 7 = 0 /\ 7 = 7).
Proof. apply (LP_KEY_injective_in_range 7 7 0 7); lia. Defined.

(** The claim C4 as it is written fails: CLEAR is 4 and COPY is 8, both
    inside 0..15, and red LOW with CLEAR gives the colour 5, whose
    remainder by 16 is 5, not the red level 1. *)
Lemma LP_COLOR_flags_inside_low_nibble :
  LP_COLOR_FLAG_CLEAR = 4 /\ LP_COLOR_FLAG_COPY = 8 /\
  LP_COLOR LP_BRIGHTNESS_OFF LP_BRIGHTNESS_LOW LP_COLOR_FLAG_CLEAR = 5 /\
  LP_COLOR LP_BRIGHTNESS_OFF LP_BRIGHTNESS_LOW LP_COLOR_FLAG_CLEAR mod 16
    <> LP_BRIGHTNESS_LOW.
Proof. repeat split. vm_compute. discriminate. Qed.

(** C4, amended. CLEAR and COPY are the bits 2 and 3, between the red
    level (bits 0-1) and the green level (bits 4-5).  For green and red in
    [0,3] and any combination of the flags, the colour fits a byte and
    green is [color / 16], red is [color mod 4], the flags are the bits
    2-3 of the colour; [color mod 16] is red plus the flags. *)
Theorem LP_COLOR_fields_recoverable green red flags :
  0 <= green <= 3 -> 0 <= red <= 3 -> In flags color_flag_combinations ->
  0 <= LP_COLOR green red flags <= 255 /\
  LP_COLOR green red flags / 16 = green /\
  LP_COLOR green red flags mod 4 = red /\
  Z.land (LP_COLOR green red flags)
         (Z.lor LP_COLOR_FLAG_CLEAR LP_COLOR_FLAG_COPY) = flags /\
  LP_COLOR green red flags mod 16 = red + flags.
Proof.
  intros Hg Hr Hf.
  split_0_3 green; split_0_3 red;
    (destruct Hf as [<- | [<- | [<- | [<- | []]]]]; vm_compute; intuition congruence).
Qed.

Lemma LP_COLOR_fields_recoverable_witness :
  0 <= LP_COLOR 3 1 LP_COLOR_FLAG_COPY <= 255 /\
  LP_COLOR 3 1 LP_COLOR_FLAG_COPY / 16 = 3 /\
  LP_COLOR 3 1 LP_COLOR_FLAG_COPY mod 4 = 1 /\
  Z.land (LP_COLOR 3 1 LP_COLOR_FLAG_COPY)
         (Z.lor LP_COLOR_FLAG_CLEAR LP_COLOR_FLAG_COPY) = LP_COLOR_FLAG_COPY /\
  LP_COLOR 3 1 LP_COLOR_FLAG_COPY mod 16 = 1 + LP_COLOR_FLAG_COPY.
Proof.
  apply (LP_COLOR_fields_recoverable 3 1 LP_COLOR_FLAG_COPY); try lia.
  simpl. auto.
Defined.

(** ** Null sessions *)

(** C10. With a null session pointer [lp_close] returns [LP_OK]; each of
    the nine other functions returns [LP_ERROR_LP_NULL].  None of them
    touches the memory or the transport. *)
Theorem null_session_results
    (alsa : Alsa) (m : memory) (devicename : string) (nonblocking : bool)
    (note : LPNote) (notes : option (list LPNote)) (flags : Z)
    (event : pointer) :
  lp_close alsa NULL m = (LP_OK, m) /\
  lp_open alsa NULL devicename nonblocking m = (LP_ERROR_LP_NULL, m) /\
  lp_reset alsa NULL m = (LP_ERROR_LP_NULL, m) /\
  lp_set_note alsa NULL note m = (LP_ERROR_LP_NULL, m) /\
  lp_set_notes alsa NULL notes m = (LP_ERROR_LP_NULL, m) /\
  lp_set_double_buffering_flags alsa NULL flags m = (LP_ERROR_LP_NULL, m) /\
  lp_swap_buffers alsa NULL m = (LP_ERROR_LP_NULL, m) /\
  lp_check_event alsa NULL event m = (LP_ERROR_LP_NULL, m) /\
  lp_enable_flashing alsa NULL m = (LP_ERROR_LP_NULL, m) /\
  lp_disable_flashing alsa NULL m = (LP_ERROR_LP_NULL, m).
Proof. repeat split. Qed.

(** ** Opening *)

(** [lp_open] has no assignment to [current_buff]: whatever the transport
    answers, the field keeps the value it had. *)
Lemma lp_open_keeps_current_buff
    (alsa : Alsa) (lp : pointer) (devicename : string) (nonblocking : bool)
    (m : memory) :
  current_buff (lp_obj (snd (lp_open alsa lp devicename nonblocking m)))
  = current_buff (lp_obj m).
Proof.
  destruct lp; [reflexivity |].
  unfold lp_open. run.
  destruct (snd_rawmidi_open alsa _ _ _ _ _) as [[rc i] o].
  destruct (rc <? 0); reflexivity.
Qed.

(** C1, on the code. An [LP] declared on the stack with 7 in
    [current_buff] is opened with success; the two channels are set and
    [current_buff] is still 7, not 0. *)
Theorem lp_open_success_current_buff_7 :
  lp_open ideal ADDR "hw:1,0,0" true (on_stack 7)
  = (LP_OK,
     {| lp_obj := {| midi_in := Some 1; midi_out := Some 2; current_buff := 7 |};
        event_obj := event_obj (on_stack 7);
        trace := [Open "hw:1,0,0" SND_RAWMIDI_NONBLOCK] |}).
Proof. reflexivity. Qed.

(** ** Closing *)

(** When the close of the input channel fails, [lp_close] returns at once:
    the only call made is that close, whatever [midi_out] holds. *)
Lemma lp_close_stops_at_failed_input
    (alsa : Alsa) (m : memory) (inp : handle) :
  midi_in (lp_obj m) = Some inp ->
  snd_rawmidi_close alsa (trace m) inp < 0 ->
  lp_close alsa ADDR m
  = (LP_ERROR_MIDI_CLOSE,
     {| lp_obj := lp_obj m; event_obj := event_obj m;
        trace := trace m ++ [Close inp] |}).
Proof.
  intros Hin Hrc. unfold lp_close. run.
  destruct m as [[mi mo cb] ev t]. simpl in *. subst mi. run.
  apply Z.ltb_lt in Hrc. now rewrite Hrc.
Qed.

(** C2, on the code. The session holds the channels 1 and 2 and closing
    channel 1 fails: [lp_close] returns [LP_ERROR_MIDI_CLOSE] and channel 2
    was never handed to [snd_rawmidi_close]. *)
Theorem lp_close_input_failure_leaks_output :
  lp_close (close_failing 1) ADDR (opened 0)
  = (LP_ERROR_MIDI_CLOSE,
     {| lp_obj := lp_obj (opened 0); event_obj := event_obj (opened 0);
        trace := [Close 1] |}) /\
  closed (trace (snd (lp_close (close_failing 1) ADDR (opened 0)))) = [1] /\
  ~ In 2 (closed (trace (snd (lp_close (close_failing 1) ADDR (opened 0))))).
Proof.
  repeat split. vm_compute. intros [H | []]. discriminate H.
Qed.

(** When both closes succeed, or only the second fails, both channels are
    handed to [snd_rawmidi_close], input first. *)
Lemma lp_close_both_when_input_ok
    (alsa : Alsa) (m : memory) (inp out : handle) :
  midi_in (lp_obj m) = Some inp ->
  midi_out (lp_obj m) = Some out ->
  0 <= snd_rawmidi_close alsa (trace m) inp ->
  trace (snd (lp_close alsa ADDR m)) = trace m ++ [Close inp; Close out].
Proof.
  intros Hin Hout Hrc. unfold lp_close. run.
  destruct m as [[mi mo cb] ev t]. simpl in *. subst mi mo. run.
  apply Z.ltb_ge in Hrc. rewrite Hrc. clear Hrc.
  destruct (_ <? 0); simpl; now rewrite <- app_assoc.
Qed.

(** ** Reading events *)

(** A complete read of three bytes whose status is neither 0x90 nor 0xB0
    makes [lp_check_event] return 1, and the caller's event is as it was. *)
Lemma lp_check_event_other_status
    (alsa : Alsa) (m : memory) (inp : handle) (event : pointer)
    (event_buff : list Z) :
  midi_in (lp_obj m) = Some inp ->
  snd_rawmidi_read alsa (trace m) inp 3 = (3, event_buff) ->
  byte_at event_buff 0 <> 0x90 ->
  byte_at event_buff 0 <> 0xB0 ->
  lp_check_event alsa ADDR event m
  = (1, {| lp_obj := lp_obj m; event_obj := event_obj m;
           trace := trace m ++ [Read inp 3] |}).
Proof.
  intros Hin Hread H90 HB0. unfold lp_check_event. run.
  destruct m as [[mi mo cb] ev t]. simpl in *. subst mi. run.
  rewrite Hread. cbn [fst snd].
  apply Z.eqb_neq in H90, HB0. rewrite H90, HB0.
  rewrite !andb_false_r. reflexivity.
Qed.

(** C3, on the code. The read delivers the three bytes 0x80 0x10 0x40 (a
    note-off status): [lp_check_event] returns 1, not 0, and the event of
    the caller is untouched. *)
Theorem lp_check_event_unknown_status_returns_1 :
  lp_check_event (reading 3 [0x80; 0x10; 0x40]) ADDR ADDR (opened 0)
  = (1, {| lp_obj := lp_obj (opened 0); event_obj := event_obj (opened 0);
           trace := [Read 1 3] |}).
Proof. reflexivity. Qed.

(** ** Writing notes *)

Lemma writes_app (a b : history) : writes (a ++ b) = writes a ++ writes b.
Proof.
  induction a as [| c a IH]; [reflexivity |].
  destruct c; simpl; now rewrite IH.
Qed.

(** The loops of [lp_set_notes] lay the 64 notes out in row-major order,
    three bytes each, and leave none of the 192 bytes of [msg_buff] as it
    was. *)
Lemma fill_msg_buff_layout (notes : list LPNote) (msg_buff : list Z) :
  length notes = 64%nat -> length msg_buff = 192%nat ->
  fill_msg_buff notes msg_buff = grid_msg notes.
Proof.
  intros Hn Hb.
  do 64 (destruct notes as [| ? notes]; [discriminate Hn |]).
  destruct notes; [| discriminate Hn].
  do 192 (destruct msg_buff as [| ? msg_buff]; [discriminate Hb |]).
  destruct msg_buff; [| discriminate Hb].
  reflexivity.
Qed.

Lemma grid_msg_length (notes : list LPNote) :
  length (grid_msg notes) = (3 * length notes)%nat.
Proof.
  unfold grid_msg. induction notes as [| n notes IH]; [reflexivity |].
  cbn [flat_map note_msg app length]. lia.
Qed.

(** A [ssize_t] below [n], itself a valid count, is not [n] after its
    conversion to [size_t]: an error code becomes a huge count. *)
Lemma to_size_t_short (r n : Z) :
  ssize_range r -> 0 <= n < 2 ^ 63 -> r < n -> (to_size_t r =? n) = false.
Proof.
  unfold ssize_range, to_size_t. intros Hr Hn Hlt.
  apply Z.eqb_neq. intros E.
  destruct (Z.neg_nonneg_cases r) as [Hneg | Hpos].
  - assert (H : (r + 1 * 2 ^ 64) mod 2 ^ 64 = r + 2 ^ 64)
      by (apply Z.mod_small; lia).
    rewrite Z.mod_add in H by lia. lia.
  - rewrite Z.mod_small in E by lia. lia.
Qed.

(** [lp_set_note] hands [note_msg note] to the transport. *)
Lemma lp_set_note_sends_note_msg
    (alsa : Alsa) (m : memory) (out : handle) (note : LPNote) :
  midi_out (lp_obj m) = Some out ->
  exists rest,
    trace (snd (lp_set_note alsa ADDR note m))
    = trace m ++ Write out (note_msg note) :: rest /\ writes rest = [].
Proof.
  intros Hout. unfold lp_set_note. run.
  destruct m as [[mi mo cb] ev t]. simpl in *. subst mo. run.
  destruct (negb _).
  - exists []. split; [reflexivity | reflexivity].
  - exists [Drain out]. destruct (_ <? 0); simpl; now rewrite <- app_assoc.
Qed.

(** C9. On an opened session and a grid of 64 notes, the write of the 192
    bytes of the grid reports [n] with [n < 192] (a shorter count, or an
    error code): [lp_set_notes] returns [LP_ERROR_MIDI_WRITE], the context
    and with it [current_buff] are as before, and the one call made to the
    transport is that write: no second write, no drain. *)
Theorem lp_set_notes_short_write
    (alsa : Alsa) (m : memory) (out : handle) (notes : list LPNote) (n : Z) :
  midi_out (lp_obj m) = Some out ->
  length notes = 64%nat ->
  snd_rawmidi_write alsa (trace m) out (grid_msg notes) = n ->
  ssize_range n -> n < 192 ->
  length (grid_msg notes) = 192%nat /\
  fst (lp_set_notes alsa ADDR (Some notes) m) = LP_ERROR_MIDI_WRITE /\
  current_buff (lp_obj (snd (lp_set_notes alsa ADDR (Some notes) m)))
    = current_buff (lp_obj m) /\
  lp_obj (snd (lp_set_notes alsa ADDR (Some notes) m)) = lp_obj m /\
  trace (snd (lp_set_notes alsa ADDR (Some notes) m))
    = trace m ++ [Write out (grid_msg notes)].
Proof.
  intros Hout Hlen Hw Hrange Hshort.
  split; [rewrite grid_msg_length, Hlen; reflexivity |].
  unfold lp_set_notes. run.
  destruct m as [[mi mo cb] ev t]. simpl in *. subst mo. run.
  rewrite (fill_msg_buff_layout notes) by (assumption || reflexivity).
  rewrite Hw.
  change (3 * LP_ROWS * LP_COLS) with 192.
  rewrite to_size_t_short by (assumption || lia).
  simpl. repeat split.
Qed.

Lemma lp_set_notes_short_write_witness :
  length (grid_msg all_off) = 192%nat /\
  fst (lp_set_notes (writing 100) ADDR (Some all_off) (opened 1))
    = LP_ERROR_MIDI_WRITE /\
  current_buff (lp_obj (snd (lp_set_notes (writing 100) ADDR (Some all_off)
                                          (opened 1))))
    = current_buff (lp_obj (opened 1)) /\
  lp_obj (snd (lp_set_notes (writing 100) ADDR (Some all_off) (opened 1)))
    = lp_obj (opened 1) /\
  trace (snd (lp_set_notes (writing 100) ADDR (Some all_off) (opened 1)))
    = trace (opened 1) ++ [Write 2 (grid_msg all_off)].
Proof.
  apply (lp_set_notes_short_write (writing 100) (opened 1) 2 all_off 100).
  - reflexivity.
  - reflexivity.
  - reflexivity.
  - unfold ssize_range. lia.
  - lia.
Defined.

(** ** Double buffering *)

(** On an opened session [lp_set_double_buffering_flags] hands the one
    message [0xB0, 0, flags + 0x20] to the output channel, followed by a
    drain when the write was complete, and leaves the context alone. *)
Lemma lp_set_double_buffering_flags_message
    (alsa : Alsa) (m : memory) (out : handle) (flags : Z) :
  midi_out (lp_obj m) = Some out ->
  exists rest,
    snd (lp_set_double_buffering_flags alsa ADDR flags m)
    = {| lp_obj := lp_obj m; event_obj := event_obj m;
         trace := trace m ++ Write out [0xB0; 0x00; uchar (flags + 0x20)] :: rest |}
    /\ writes rest = [].
Proof.
  intros Hout. unfold lp_set_double_buffering_flags. run.
  destruct m as [[mi mo cb] ev t]. simpl in *. subst mo. run.
  change (uchar 176) with 0xB0. change (uchar 0) with 0.
  destruct (negb _).
  - exists []. split; reflexivity.
  - exists [Drain out]. destruct (_ <? 0); simpl; now rewrite <- app_assoc.
Qed.

(** The claim C5 as it is written fails: with DISPLAY_1 | UPDATE_0 | COPY
    the message written is [0xB0, 0x00, 0x31], not [0xB0, 0x00, 0x25]. *)
Lemma lp_set_double_buffering_flags_not_0x25 :
  writes (trace (snd (lp_set_double_buffering_flags ideal ADDR
                        (Z.lor (Z.lor LP_DOUBLE_BUFFERING_DISPLAY_1
                                      LP_DOUBLE_BUFFERING_UPDATE_0)
                               LP_DOUBLE_BUFFERING_COPY)
                        (opened 0))))
  = [[0xB0; 0x00; 0x31]] /\
  writes (trace (snd (lp_set_double_buffering_flags ideal ADDR
                        (Z.lor (Z.lor LP_DOUBLE_BUFFERING_DISPLAY_1
                                      LP_DOUBLE_BUFFERING_UPDATE_0)
                               LP_DOUBLE_BUFFERING_COPY)
                        (opened 0))))
  <> [[0xB0; 0x00; 0x25]].
Proof. split; vm_compute; [reflexivity | discriminate]. Qed.

(** C5, amended. COPY is [1 << 4] = 16, so DISPLAY_1 | UPDATE_0 | COPY is
    17 and [flags + 0x20] is 0x31: on an opened session the call writes
    exactly the three bytes [0xB0, 0x00, 0x31] to the output channel. *)
Theorem lp_set_double_buffering_flags_display1_update0_copy
    (alsa : Alsa) (m : memory) (out : handle) :
  midi_out (lp_obj m) = Some out ->
  let flags := Z.lor (Z.lor LP_DOUBLE_BUFFERING_DISPLAY_1
                            LP_DOUBLE_BUFFERING_UPDATE_0)
                     LP_DOUBLE_BUFFERING_COPY in
  flags + 0x20 = 0x31 /\
  exists rest,
    trace (snd (lp_set_double_buffering_flags alsa ADDR flags m))
    = trace m ++ Write out [0xB0; 0x00; 0x31] :: rest /\ writes rest = [].
Proof.
  intros Hout flags. split; [reflexivity |].
  destruct (lp_set_double_buffering_flags_message alsa m out flags Hout)
    as (rest & E & Hrest).
  exists rest. rewrite E. split; [reflexivity | assumption].
Qed.

Lemma lp_set_double_buffering_flags_display1_update0_copy_witness :
  let flags := Z.lor (Z.lor LP_DOUBLE_BUFFERING_DISPLAY_1
                            LP_DOUBLE_BUFFERING_UPDATE_0)
                     LP_DOUBLE_BUFFERING_COPY in
  flags + 0x20 = 0x31 /\
  exists rest,
    trace (snd (lp_set_double_buffering_flags ideal ADDR flags (opened 0)))
    = trace (opened 0) ++ Write 2 [0xB0; 0x00; 0x31] :: rest /\ writes rest = [].
Proof.
  apply (lp_set_double_buffering_flags_display1_update0_copy ideal (opened 0) 2).
  reflexivity.
Defined.

(** One [lp_swap_buffers] on an opened session: [current_buff] becomes 1
    if it was 0 and 0 otherwise, and the buffer-control message displays
    the new current buffer, updates the other one and asks for the copy. *)
Lemma lp_swap_buffers_step (alsa : Alsa) (m : memory) (out : handle) :
  midi_out (lp_obj m) = Some out ->
  let cb := if current_buff (lp_obj m) =? 0 then 1 else 0 in
  let flags := if current_buff (lp_obj m) =? 0
               then Z.lor (Z.lor LP_DOUBLE_BUFFERING_DISPLAY_1
                                 LP_DOUBLE_BUFFERING_UPDATE_0)
                          LP_DOUBLE_BUFFERING_COPY
               else Z.lor (Z.lor LP_DOUBLE_BUFFERING_DISPLAY_0
                                 LP_DOUBLE_BUFFERING_UPDATE_1)
                          LP_DOUBLE_BUFFERING_COPY in
  exists rest,
    snd (lp_swap_buffers alsa ADDR m)
    = {| lp_obj := {| midi_in := midi_in (lp_obj m); midi_out := Some out;
                      current_buff := cb |};
         event_obj := event_obj m;
         trace := trace m ++ Write out [0xB0; 0x00; flags + 0x20] :: rest |}
    /\ writes rest = [].
Proof.
  intros Hout cb flags. subst cb flags.
  destruct m as [[mi mo c] ev t]. simpl in Hout. subst mo.
  unfold lp_swap_buffers.
  cbv [bind get_lp set_current_buff lp_obj midi_out midi_in current_buff
       event_obj trace].
  destruct (c =? 0);
    match goal with
    | |- context [lp_set_double_buffering_flags alsa ADDR ?f ?m'] =>
        destruct (lp_set_double_buffering_flags_message alsa m' out f eq_refl)
          as (rest & E & Hrest);
        exists rest; rewrite E; split; [reflexivity | assumption]
    end.
Qed.

(** C7. On an opened session whose [current_buff] is 0 or 1, two calls of
    [lp_swap_buffers] bring [current_buff] back; they issue two
    buffer-control messages [0xB0, 0, f1 + 0x20] and [0xB0, 0, f2 + 0x20]
    and no other write; the buffer [f1] displays is the one [f2] updates
    and the other way round, the first message displays the new current
    buffer and updates the old one, and both carry COPY. *)
Theorem lp_swap_buffers_twice (alsa : Alsa) (m : memory) (out : handle) :
  midi_out (lp_obj m) = Some out ->
  current_buff (lp_obj m) = 0 \/ current_buff (lp_obj m) = 1 ->
  let m1 := snd (lp_swap_buffers alsa ADDR m) in
  let m2 := snd (lp_swap_buffers alsa ADDR m1) in
  current_buff (lp_obj m2) = current_buff (lp_obj m) /\
  current_buff (lp_obj m1) = 1 - current_buff (lp_obj m) /\
  exists new f1 f2,
    trace m2 = trace m ++ new /\
    writes new = [[0xB0; 0x00; f1 + 0x20]; [0xB0; 0x00; f2 + 0x20]] /\
    display_buffer f1 = update_buffer f2 /\
    update_buffer f1 = display_buffer f2 /\
    display_buffer f1 = current_buff (lp_obj m1) /\
    update_buffer f1 = current_buff (lp_obj m) /\
    copy_set f1 = true /\ copy_set f2 = true.
Proof.
  intros Hout Hcb m1 m2.
  destruct (lp_swap_buffers_step alsa m out Hout) as (r1 & E1 & W1).
  fold m1 in E1.
  assert (Hout1 : midi_out (lp_obj m1) = Some out) by now rewrite E1.
  destruct (lp_swap_buffers_step alsa m1 out Hout1) as (r2 & E2 & W2).
  fold m2 in E2. rewrite E2.
  cbn [lp_obj current_buff trace].
  rewrite E1. cbn [lp_obj current_buff trace].
  destruct Hcb as [-> | ->]; cbn [Z.eqb].
  - repeat split.
    eexists _, 17, 20. split; [rewrite <- app_assoc; reflexivity |].
    cbn [app writes]. rewrite writes_app, W1. cbn [app writes]. rewrite W2.
    repeat split.
  - repeat split.
    eexists _, 20, 17. split; [rewrite <- app_assoc; reflexivity |].
    cbn [app writes]. rewrite writes_app, W1. cbn [app writes]. rewrite W2.
    repeat split.
Qed.

Lemma lp_swap_buffers_twice_witness :
  let m1 := snd (lp_swap_buffers ideal ADDR (opened 1)) in
  let m2 := snd (lp_swap_buffers ideal ADDR m1) in
  current_buff (lp_obj m2) = current_buff (lp_obj (opened 1)) /\
  current_buff (lp_obj m1) = 1 - current_buff (lp_obj (opened 1)) /\
  exists new f1 f2,
    trace m2 = trace (opened 1) ++ new /\
    writes new = [[0xB0; 0x00; f1 + 0x20]; [0xB0; 0x00; f2 + 0x20]] /\
    display_buffer f1 = update_buffer f2 /\
    update_buffer f1 = display_buffer f2 /\
    display_buffer f1 = current_buff (lp_obj m1) /\
    update_buffer f1 = current_buff (lp_obj (opened 1)) /\
    copy_set f1 = true /\ copy_set f2 = true.
Proof.
  apply (lp_swap_buffers_twice ideal (opened 1) 2).
  - reflexivity.
  - right. reflexivity.
Defined.

(** ** Decoding grid events *)

(** The arithmetic of the 0x90 branch on the key of a grid cell: the
    column comes back from the remainder by 9 of the low part, the row
    from the quotient by 16. *)
Lemma grid_key_decodes (row col : Z) :
  0 <= row <= 7 -> 0 <= col <= 7 ->
  let note := uchar (LP_KEY row col) in
  uchar (Z.rem (note - Z.quot note 16 * 16) 9) = col /\
  uchar (Z.quot note 16) = row.
Proof.
  intros Hr Hc note. subst note.
  pose proof (LP_KEY_bounds row col Hr Hc) as Hk.
  unfold uchar. rewrite (Z.mod_small (LP_KEY row col)) by lia.
  rewrite Z.quot_div_nonneg by lia.
  rewrite LP_KEY_row by assumption.
  replace (LP_KEY row col - row * 16) with col by (unfold LP_KEY; lia).
  rewrite Z.rem_small by lia.
  rewrite !Z.mod_small by lia. split; reflexivity.
Qed.

(** [lp_set_note] on an opened session adds one write to those made
    before, the three bytes of the note. *)
Lemma lp_set_note_writes
    (alsa : Alsa) (m : memory) (out : handle) (note : LPNote) :
  midi_out (lp_obj m) = Some out ->
  writes (trace (snd (lp_set_note alsa ADDR note m)))
  = writes (trace m) ++ [[state note; key note; color note]].
Proof.
  intros Hout.
  destruct (lp_set_note_sends_note_msg alsa m out note Hout) as (rest & E & Hrest).
  rewrite E, writes_app. cbn [writes]. now rewrite Hrest.
Qed.

(** C6. Round trip through the encoder and the decoder of the code.  For
    a row and a column in [0,7] and a velocity byte that is not 0,
    [lp_set_note] is called on an opened session with the note
    (NOTE_ON, [LP_KEY row col], velocity); [sent] is the message it handed
    to the transport, the last write of its trace.  It is the 0x90 message
    of that key, and when a complete read delivers [sent] to
    [lp_check_event], on any session and transport, the result is 1 and
    the event is PRESSED with [note_x] the column and [note_y] the row. *)
Theorem lp_check_event_decodes_grid_press
    (alsa_out alsa_in : Alsa) (m_out m_in : memory) (out inp : handle)
    (row col velocity : Z) :
  midi_out (lp_obj m_out) = Some out ->
  midi_in (lp_obj m_in) = Some inp ->
  0 <= row <= 7 -> 0 <= col <= 7 -> 1 <= velocity <= 255 ->
  let sent :=
    last (writes (trace (snd (lp_set_note alsa_out ADDR
                                (LP_NOTE LP_NOTE_ON (LP_KEY row col) velocity)
                                m_out)))) [] in
  snd_rawmidi_read alsa_in (trace m_in) inp 3 = (3, sent) ->
  writes (trace (snd (lp_set_note alsa_out ADDR
                        (LP_NOTE LP_NOTE_ON (LP_KEY row col) velocity) m_out)))
    = writes (trace m_out) ++ [sent] /\
  sent = [0x90; LP_KEY row col; velocity] /\
  fst (lp_check_event alsa_in ADDR ADDR m_in) = 1 /\
  event_obj (snd (lp_check_event alsa_in ADDR ADDR m_in))
    = {| type := LP_EVENT_PRESSED; note_x := col; note_y := row |}.
Proof.
  intros Hout Hin Hr Hc Hv sent Hread.
  assert (Hsent : sent = note_msg (LP_NOTE LP_NOTE_ON (LP_KEY row col) velocity)).
  { subst sent. rewrite (lp_set_note_writes alsa_out m_out out _ Hout).
    apply last_last. }
  assert (Hbytes : note_msg (LP_NOTE LP_NOTE_ON (LP_KEY row col) velocity)
                   = [0x90; LP_KEY row col; velocity]).
  { unfold note_msg, LP_NOTE, uchar. cbn [state key color].
    pose proof (LP_KEY_bounds row col Hr Hc).
    rewrite (Z.mod_small (LP_KEY row col)), (Z.mod_small velocity) by lia.
    reflexivity. }
  split; [| split].
  { rewrite Hsent. apply (lp_set_note_writes alsa_out m_out out _ Hout). }
  { now rewrite Hsent. }
  rewrite Hsent in Hread. clear Hsent Hbytes sent Hout.
  destruct (grid_key_decodes row col Hr Hc) as [Hx Hy].
  unfold lp_check_event. run.
  destruct m_in as [[mi mo cb] ev t]. simpl in *. subst mi. run.
  rewrite Hread. cbn [fst snd]. change (to_int 3) with 3.
  assert (Hu : forall z, uchar (uchar z) = uchar z)
    by (intros z; unfold uchar; apply Z.mod_mod; lia).
  set (msg := note_msg (LP_NOTE LP_NOTE_ON (LP_KEY row col) velocity)).
  assert (B0 : byte_at msg 0 = 0x90) by reflexivity.
  assert (B1 : byte_at msg 1 = uchar (LP_KEY row col)) by apply Hu.
  assert (B2 : byte_at msg 2 = velocity).
  { unfold msg, byte_at; cbn [note_msg LP_NOTE color nth].
    rewrite Hu. apply Z.mod_small. lia. }
  rewrite B0, B1, B2, Hx, Hy.
  assert (Hvel : (velocity >? 0) = true) by (apply Z.gtb_lt; lia).
  rewrite Hvel. split; reflexivity.
Qed.

Lemma lp_check_event_decodes_grid_press_witness :
  let sent :=
    last (writes (trace (snd (lp_set_note loopback ADDR
                                (LP_NOTE LP_NOTE_ON (LP_KEY 5 7) 127)
                                (opened 0))))) [] in
  writes (trace (snd (lp_set_note loopback ADDR
                        (LP_NOTE LP_NOTE_ON (LP_KEY 5 7) 127) (opened 0))))
    = writes (trace (opened 0)) ++ [sent] /\
  sent = [0x90; LP_KEY 5 7; 127] /\
  fst (lp_check_event loopback ADDR ADDR
         (snd (lp_set_note loopback ADDR
                 (LP_NOTE LP_NOTE_ON (LP_KEY 5 7) 127) (opened 0)))) = 1 /\
  event_obj (snd (lp_check_event loopback ADDR ADDR
                    (snd (lp_set_note loopback ADDR
                            (LP_NOTE LP_NOTE_ON (LP_KEY 5 7) 127) (opened 0)))))
    = {| type := LP_EVENT_PRESSED; note_x := 7; note_y := 5 |}.
Proof.
  apply (lp_check_event_decodes_grid_press
           loopback loopback (opened 0)
           (snd (lp_set_note loopback ADDR
                   (LP_NOTE LP_NOTE_ON (LP_KEY 5 7) 127) (opened 0)))
           2 1 5 7 127).
  - reflexivity.
  - reflexivity.
  - lia.
  - lia.
  - lia.
  - reflexivity.
Defined.

(** ** Sessions that were never opened *)

(** Without an output channel [lp_swap_buffers] gives up before it
    touches [current_buff] or the transport. *)
Lemma lp_swap_buffers_uninitialized (alsa : Alsa) (m : memory) :
  midi_out (lp_obj m) = None ->
  lp_swap_buffers alsa ADDR m = (LP_ERROR_UNINITIALIZED, m).
Proof.
  intros Hout. unfold lp_swap_buffers. run.
  destruct m as [[mi mo cb] ev t]. simpl in *. now subst mo.
Qed.

(** ** Scenarios of the header's example *)

Example set_note_red_full_at_origin :
  writes (trace (snd (lp_set_note ideal ADDR
                        (LP_NOTE LP_NOTE_ON (LP_KEY 0 0) LP_COLOR_RED_FULL)
                        (opened 0))))
  = [[0x90; 0x00; 0x03]].
Proof. reflexivity. Qed.

Example automap_release_decoded :
  lp_check_event (reading 3 [0xB0; 0x6A; 0x00]) ADDR ADDR (opened 0)
  = (1, {| lp_obj := lp_obj (opened 0);
           event_obj := {| type := LP_EVENT_AUTOMAP_RELEASED;
                           note_x := 2; note_y := 0 |};
           trace := [Read 1 3] |}).
Proof. reflexivity. Qed.

Example would_block_is_no_event :
  lp_check_event ideal ADDR ADDR (opened 0)
  = (0, {| lp_obj := lp_obj (opened 0); event_obj := event_obj (opened 0);
           trace := [Read 1 3] |}).
Proof. reflexivity. Qed.

(** * Further properties of the library *)

(** ** The six sending functions *)

(** On the range of [ssize_t], the comparison of the converted count with
    an expected count is the comparison of the result itself. *)
Lemma to_size_t_eqb (w n : Z) :
  ssize_range w -> 0 <= n < 2 ^ 63 -> (to_size_t w =? n) = (w =? n).
Proof.
  intros Hw Hn.
  destruct (Z.lt_trichotomy w n) as [Hlt | [-> | Hgt]].
  - rewrite to_size_t_short by assumption.
    symmetry. apply Z.eqb_neq. lia.
  - unfold to_size_t. rewrite Z.mod_small by lia. reflexivity.
  - unfold ssize_range in Hw. unfold to_size_t.
    rewrite Z.mod_small by lia. reflexivity.
Qed.

(** The run of a sending function on an opened session, read off the
    two answers of the transport. *)
Lemma run_command_opened
    (alsa : Alsa) (m : memory) (out : handle) (c : command) :
  midi_out (lp_obj m) = Some out ->
  grid_sized c ->
  ssize_range (snd_rawmidi_write alsa (trace m) out (message c)) ->
  run_command alsa ADDR c m
  = if snd_rawmidi_write alsa (trace m) out (message c) =? expected c
    then (if snd_rawmidi_drain alsa (trace m ++ [Write out (message c)]) out <? 0
          then LP_ERROR_MIDI_DRAIN else LP_OK,
          {| lp_obj := lp_obj m; event_obj := event_obj m;
             trace := trace m ++ [Write out (message c); Drain out] |})
    else (LP_ERROR_MIDI_WRITE,
          {| lp_obj := lp_obj m; event_obj := event_obj m;
             trace := trace m ++ [Write out (message c)] |}).
Proof.
  intros Hout Hsize Hw.
  destruct m as [[mi mo cb] ev t]. cbn [lp_obj midi_out trace] in *. subst mo.
  assert (Hgrid : forall notes, length notes = 64%nat ->
            fill_msg_buff notes (repeat 0 (Z.to_nat (3 * LP_ROWS * LP_COLS)))
            = grid_msg notes)
    by (intros notes Hn; apply fill_msg_buff_layout; [assumption | reflexivity]).
  destruct c as [| note | notes | flags | |];
    cbn [run_command message expected grid_sized] in *;
    unfold lp_reset, lp_set_note, lp_set_notes, lp_set_double_buffering_flags,
           lp_enable_flashing, lp_disable_flashing;
    run; try rewrite (Hgrid notes Hsize);
    change (uchar 176) with 0xB0; change (uchar 0) with 0;
    change (uchar 40) with 0x28; change (uchar 33) with 0x21;
    unfold note_msg in *;
    rewrite to_size_t_eqb by (assumption || (vm_compute; split; congruence));
    match goal with
    | |- context [?w =? ?n] => destruct (w =? n)
    end; cbn [negb]; try reflexivity;
    rewrite <- app_assoc; cbn [app];
    match goal with
    | |- context [?d <? 0] => destruct (d <? 0)
    end; reflexivity.
Qed.

(** X1. On an opened session each sending function ([lp_reset],
    [lp_set_note], [lp_set_notes], [lp_set_double_buffering_flags],
    [lp_enable_flashing], [lp_disable_flashing]) returns [LP_OK] exactly
    when the write reports the whole message and the drain does not fail,
    [LP_ERROR_MIDI_WRITE] exactly when the write reports another count or
    an error, [LP_ERROR_MIDI_DRAIN] exactly when the write was whole and
    the drain failed. *)
Theorem sending_result
    (alsa : Alsa) (m : memory) (out : handle) (c : command) :
  midi_out (lp_obj m) = Some out ->
  grid_sized c ->
  ssize_range (snd_rawmidi_write alsa (trace m) out (message c)) ->
  let w := snd_rawmidi_write alsa (trace m) out (message c) in
  let d := snd_rawmidi_drain alsa (trace m ++ [Write out (message c)]) out in
  let rc := fst (run_command alsa ADDR c m) in
  expected c = Z.of_nat (length (message c)) /\
  (rc = LP_OK <-> w = expected c /\ 0 <= d) /\
  (rc = LP_ERROR_MIDI_WRITE <-> w <> expected c) /\
  (rc = LP_ERROR_MIDI_DRAIN <-> w = expected c /\ d < 0).
Proof.
  intros Hout Hsize Hw w d rc. subst rc.
  rewrite (run_command_opened alsa m out c Hout Hsize Hw).
  fold w d. split.
  - destruct c; try reflexivity.
    cbn [expected message grid_sized] in *.
    rewrite grid_msg_length, Hsize. reflexivity.
  - destruct (Z.eqb_spec w (expected c)) as [E | N];
      [destruct (Z.ltb_spec d 0) |]; cbn [fst];
      unfold LP_OK, LP_ERROR_MIDI_WRITE, LP_ERROR_MIDI_DRAIN;
      repeat split; intros; try discriminate; try tauto; try lia.
Qed.

Lemma sending_result_witness :
  let w := snd_rawmidi_write (draining (-5)) (trace (opened 0)) 2
             (message EnableFlashing) in
  let d := snd_rawmidi_drain (draining (-5))
             (trace (opened 0) ++ [Write 2 (message EnableFlashing)]) 2 in
  let rc := fst (run_command (draining (-5)) ADDR EnableFlashing (opened 0)) in
  expected EnableFlashing = Z.of_nat (length (message EnableFlashing)) /\
  (rc = LP_OK <-> w = expected EnableFlashing /\ 0 <= d) /\
  (rc = LP_ERROR_MIDI_WRITE <-> w <> expected EnableFlashing) /\
  (rc = LP_ERROR_MIDI_DRAIN <-> w = expected EnableFlashing /\ d < 0).
Proof.
  apply (sending_result (draining (-5)) (opened 0) 2 EnableFlashing).
  - reflexivity.
  - exact I.
  - unfold ssize_range. simpl. lia.
Defined.

(** X2. On an opened session each sending function makes one write, of
    its own message and to the output channel; it drains that channel
    only after a whole write; it makes no other call and leaves the
    context and the caller's event as they were. *)
Theorem sending_calls
    (alsa : Alsa) (m : memory) (out : handle) (c : command) :
  midi_out (lp_obj m) = Some out ->
  grid_sized c ->
  ssize_range (snd_rawmidi_write alsa (trace m) out (message c)) ->
  snd (run_command alsa ADDR c m)
  = {| lp_obj := lp_obj m; event_obj := event_obj m;
       trace := trace m ++ Write out (message c)
                  :: (if snd_rawmidi_write alsa (trace m) out (message c)
                         =? expected c
                      then [Drain out] else []) |}.
Proof.
  intros Hout Hsize Hw.
  rewrite (run_command_opened alsa m out c Hout Hsize Hw).
  destruct (_ =? expected c); reflexivity.
Qed.

Lemma sending_calls_witness :
  snd (run_command (writing 2) ADDR Reset (opened 1))
  = {| lp_obj := lp_obj (opened 1); event_obj := event_obj (opened 1);
       trace := trace (opened 1) ++ Write 2 (message Reset)
                  :: (if snd_rawmidi_write (writing 2) (trace (opened 1)) 2
                           (message Reset) =? expected Reset
                      then [Drain 2] else []) |}.
Proof.
  apply (sending_calls (writing 2) (opened 1) 2 Reset).
  - reflexivity.
  - exact I.
  - unfold ssize_range. simpl. lia.
Defined.

(** ** Contexts without channels *)

(** X3. On a context whose output channel is null, whatever its input
    channel, each of the seven functions that send returns
    [LP_ERROR_UNINITIALIZED] (for [lp_set_notes] also when the array is
    null); on a context whose input channel is null, whatever its output
    channel, so does [lp_check_event].  The transport is not called and
    nothing is modified, [current_buff] included. *)
Theorem uninitialized_results
    (alsa : Alsa) (channel : option handle) (cb : Z) (ev : LPEvent)
    (t : history) (note : LPNote) (notes : option (list LPNote))
    (flags : Z) (event : pointer) :
  let no_out := {| lp_obj := {| midi_in := channel; midi_out := None;
                                current_buff := cb |};
                   event_obj := ev; trace := t |} in
  let no_in := {| lp_obj := {| midi_in := None; midi_out := channel;
                               current_buff := cb |};
                  event_obj := ev; trace := t |} in
  lp_reset alsa ADDR no_out = (LP_ERROR_UNINITIALIZED, no_out) /\
  lp_set_note alsa ADDR note no_out = (LP_ERROR_UNINITIALIZED, no_out) /\
  lp_set_notes alsa ADDR notes no_out = (LP_ERROR_UNINITIALIZED, no_out) /\
  lp_set_double_buffering_flags alsa ADDR flags no_out
    = (LP_ERROR_UNINITIALIZED, no_out) /\
  lp_swap_buffers alsa ADDR no_out = (LP_ERROR_UNINITIALIZED, no_out) /\
  lp_enable_flashing alsa ADDR no_out = (LP_ERROR_UNINITIALIZED, no_out) /\
  lp_disable_flashing alsa ADDR no_out = (LP_ERROR_UNINITIALIZED, no_out) /\
  lp_check_event alsa ADDR event no_in = (LP_ERROR_UNINITIALIZED, no_in).
Proof. repeat split. Qed.

(** [lp_set_notes] on an opened session with a null array returns
    [LP_ERROR_ARGUMENT_NULL] without a call to the transport. *)
Lemma lp_set_notes_null_array (alsa : Alsa) (m : memory) (out : handle) :
  midi_out (lp_obj m) = Some out ->
  lp_set_notes alsa ADDR None m = (LP_ERROR_ARGUMENT_NULL, m).
Proof.
  intros Hout. destruct m as [[mi mo cb] ev t].
  cbn [lp_obj midi_out] in *. subst mo. reflexivity.
Qed.

(** ** Closing, continued *)

Lemma closed_app (a b : history) : closed (a ++ b) = closed a ++ closed b.
Proof.
  induction a as [| c a IH]; [reflexivity |].
  destruct c; simpl; now rewrite IH.
Qed.

Lemma closed_map_Close (l : list handle) : closed (map Close l) = l.
Proof. induction l as [| h l IH]; [reflexivity |]. simpl. now rewrite IH. Qed.

(** The run of [lp_close] on a transport whose closes all succeed. *)
Lemma lp_close_run (alsa : Alsa) (m : memory) :
  (forall t h, 0 <= snd_rawmidi_close alsa t h) ->
  lp_close alsa ADDR m
  = (LP_OK, {| lp_obj := lp_obj m; event_obj := event_obj m;
               trace := trace m ++ map Close (channels (lp_obj m)) |}).
Proof.
  intros Hok. unfold lp_close, channels. run.
  destruct m as [[[i |] [o |] cb] ev t];
    repeat first
      [ progress run
      | progress cbn [Z.ltb Z.compare]
      | match goal with
        | |- context [snd_rawmidi_close alsa ?t ?h <? 0] =>
            replace (snd_rawmidi_close alsa t h <? 0) with false
              by (symmetry; apply Z.ltb_ge; apply Hok)
        end ];
    cbn [map app]; rewrite <- ?app_assoc, ?app_nil_r;
    reflexivity.
Qed.

(** X4. When the transport closes whatever it is asked to, [lp_close]
    returns [LP_OK] after closing exactly the non-null channels of the
    context, the input before the output, and makes no other call; on a
    context with two null channels it makes no call at all. *)
Theorem lp_close_closes_channels (alsa : Alsa) (m : memory) :
  (forall t h, 0 <= snd_rawmidi_close alsa t h) ->
  fst (lp_close alsa ADDR m) = LP_OK /\
  trace (snd (lp_close alsa ADDR m))
    = trace m ++ map Close (channels (lp_obj m)) /\
  closed (trace (snd (lp_close alsa ADDR m)))
    = closed (trace m) ++ channels (lp_obj m) /\
  (midi_in (lp_obj m) = None -> midi_out (lp_obj m) = None ->
   lp_close alsa ADDR m = (LP_OK, m)).
Proof.
  intros Hok. rewrite (lp_close_run alsa m Hok). cbn [fst snd trace].
  repeat split.
  - now rewrite closed_app, closed_map_Close.
  - intros Hi Ho. destruct m as [[mi mo cb] ev t].
    cbn [lp_obj midi_in midi_out] in *. subst mi mo.
    unfold channels. cbn [midi_in midi_out app map lp_obj event_obj trace].
    now rewrite app_nil_r.
Qed.

Lemma lp_close_closes_channels_witness :
  fst (lp_close ideal ADDR (opened 0)) = LP_OK /\
  trace (snd (lp_close ideal ADDR (opened 0)))
    = trace (opened 0) ++ map Close (channels (lp_obj (opened 0))) /\
  closed (trace (snd (lp_close ideal ADDR (opened 0))))
    = closed (trace (opened 0)) ++ channels (lp_obj (opened 0)) /\
  (midi_in (lp_obj (opened 0)) = None -> midi_out (lp_obj (opened 0)) = None ->
   lp_close ideal ADDR (opened 0) = (LP_OK, opened 0)).
Proof.
  apply (lp_close_closes_channels ideal (opened 0)).
  intros t h. simpl. lia.
Defined.

(** X5. On a context with both channels, [lp_close] returns [LP_OK]
    exactly when the close of the input and then the close of the output
    both succeed, and [LP_ERROR_MIDI_CLOSE] otherwise. *)
Theorem lp_close_result (alsa : Alsa) (m : memory) (inp out : handle) :
  midi_in (lp_obj m) = Some inp ->
  midi_out (lp_obj m) = Some out ->
  let rc_in := snd_rawmidi_close alsa (trace m) inp in
  let rc_out := snd_rawmidi_close alsa (trace m ++ [Close inp]) out in
  (fst (lp_close alsa ADDR m) = LP_OK <-> 0 <= rc_in /\ 0 <= rc_out) /\
  (fst (lp_close alsa ADDR m) = LP_ERROR_MIDI_CLOSE <-> rc_in < 0 \/ rc_out < 0).
Proof.
  intros Hin Hout rc_in rc_out. unfold lp_close. run.
  destruct m as [[mi mo cb] ev t]. cbn [lp_obj midi_in midi_out trace] in *.
  subst mi mo rc_in rc_out. run.
  destruct (Z.ltb_spec (snd_rawmidi_close alsa t inp) 0); run;
    [| destruct (Z.ltb_spec (snd_rawmidi_close alsa (t ++ [Close inp]) out) 0)];
    cbn [fst]; unfold LP_OK, LP_ERROR_MIDI_CLOSE;
    repeat split; intros; try discriminate; try lia.
Qed.

Lemma lp_close_result_witness :
  let rc_in := snd_rawmidi_close (close_failing 2) (trace (opened 0)) 1 in
  let rc_out := snd_rawmidi_close (close_failing 2)
                  (trace (opened 0) ++ [Close 1]) 2 in
  (fst (lp_close (close_failing 2) ADDR (opened 0)) = LP_OK
     <-> 0 <= rc_in /\ 0 <= rc_out) /\
  (fst (lp_close (close_failing 2) ADDR (opened 0)) = LP_ERROR_MIDI_CLOSE
     <-> rc_in < 0 \/ rc_out < 0).
Proof.
  apply (lp_close_result (close_failing 2) (opened 0) 1 2); reflexivity.
Defined.



(** ** What leaves the context alone *)

(** Case analysis on every test a run goes through. *)
Ltac split_tests :=
  repeat match goal with
         | |- context [if ?b then _ else _] => destruct b
         | |- context [match ?o with Some _ => _ | None => _ end] => destruct o
         end.

(** X7. Of the ten functions only [lp_open] and [lp_swap_buffers] write
    to the context: whatever the arguments and the answers of the
    transport, the eight others leave the two channel pointers and
    [current_buff] as they were. *)
Theorem context_untouched
    (alsa : Alsa) (m : memory) (lp event : pointer) (note : LPNote)
    (notes : option (list LPNote)) (flags : Z) :
  lp_obj (snd (lp_reset alsa lp m)) = lp_obj m /\
  lp_obj (snd (lp_close alsa lp m)) = lp_obj m /\
  lp_obj (snd (lp_set_note alsa lp note m)) = lp_obj m /\
  lp_obj (snd (lp_set_notes alsa lp notes m)) = lp_obj m /\
  lp_obj (snd (lp_set_double_buffering_flags alsa lp flags m)) = lp_obj m /\
  lp_obj (snd (lp_check_event alsa lp event m)) = lp_obj m /\
  lp_obj (snd (lp_enable_flashing alsa lp m)) = lp_obj m /\
  lp_obj (snd (lp_disable_flashing alsa lp m)) = lp_obj m.
Proof.
  destruct m as [[mi mo cb] ev t].
  destruct lp; [repeat split |].
  unfold lp_reset, lp_close, lp_set_note, lp_set_notes,
         lp_set_double_buffering_flags, lp_check_event,
         lp_enable_flashing, lp_disable_flashing.
  repeat split; run; destruct mi, mo, notes, event; run;
    split_tests; reflexivity.
Qed.

(** ** Opening, continued *)

(** X8. [lp_open] makes one call, [snd_rawmidi_open] on the device name
    with the mode [SND_RAWMIDI_NONBLOCK] when [nonblocking] is set and 0
    otherwise; it returns [LP_OK] exactly when that call does not fail
    and [LP_ERROR_OPENING_LAUNCHPAD] otherwise; the channels of the
    context are what the call left in them, also after a failure. *)
Theorem lp_open_outcome
    (alsa : Alsa) (m : memory) (devicename : string) (nonblocking : bool) :
  let mode := if nonblocking then SND_RAWMIDI_NONBLOCK else 0 in
  let answer := snd_rawmidi_open alsa (trace m) (midi_in (lp_obj m))
                                 (midi_out (lp_obj m)) devicename mode in
  let res := lp_open alsa ADDR devicename nonblocking m in
  (fst res = LP_OK <-> 0 <= fst (fst answer)) /\
  (fst res = LP_ERROR_OPENING_LAUNCHPAD <-> fst (fst answer) < 0) /\
  trace (snd res) = trace m ++ [Open devicename mode] /\
  midi_in (lp_obj (snd res)) = snd (fst answer) /\
  midi_out (lp_obj (snd res)) = snd answer /\
  event_obj (snd res) = event_obj m.
Proof.
  intros mode answer res. subst res answer.
  destruct m as [[mi mo cb] ev t]. unfold lp_open. run.
  assert (Hmode : (if nonblocking then Z.lor 0 SND_RAWMIDI_NONBLOCK else 0) = mode)
    by (destruct nonblocking; reflexivity).
  rewrite Hmode.
  destruct (snd_rawmidi_open alsa t mi mo devicename mode) as [[rc i] o].
  cbn [fst snd].
  destruct (Z.ltb_spec rc 0); cbn [fst snd];
    unfold LP_OK, LP_ERROR_OPENING_LAUNCHPAD;
    repeat split; intros; try discriminate; try lia.
Qed.

(** ** The buffer-control byte *)

Lemma documented_flags_bound (flags : Z) :
  documented_flags flags -> 0 <= flags <= 29.
Proof.
  unfold documented_flags. change (Z.lor _ _) with 29. intros E.
  assert (Hnn : 0 <= flags).
  { rewrite <- E. apply Z.land_nonneg. right. lia. }
  assert (Hlt : flags < 32).
  { destruct (Z.lt_ge_cases flags 32) as [| Hge]; [assumption | exfalso].
    assert (Hlog : 5 <= Z.log2 flags)
      by (change 5 with (Z.log2 32); apply Z.log2_le_mono; lia).
    assert (Hbit : Z.testbit flags (Z.log2 flags) = true)
      by (apply Z.bit_log2; lia).
    assert (Hmask : Z.testbit (Z.land flags 29) (Z.log2 flags) = true)
      by (rewrite E; exact Hbit).
    rewrite Z.land_spec, (Z.bits_above_log2 29) in Hmask.
    - rewrite andb_false_r in Hmask. discriminate.
    - lia.
    - change (Z.log2 29) with 4. lia. }
  assert (Hcases : flags = 30 \/ flags = 31 \/ 0 <= flags <= 29) by lia.
  destruct Hcases as [-> | [-> | ?]]; [discriminate E | discriminate E | assumption].
Qed.

(** X9. For a flag byte built from the [LP_DOUBLE_BUFFERING_] constants,
    [lp_set_double_buffering_flags] on an opened session writes
    [0xB0, 0x00, 0x20 + flags] with no wrap-around: the third byte lies
    in 0x20..0x3D, so it is a MIDI data byte and the message is never the
    reset message. *)
Theorem lp_set_double_buffering_flags_documented
    (alsa : Alsa) (m : memory) (out : handle) (flags : Z) :
  midi_out (lp_obj m) = Some out ->
  documented_flags flags ->
  0x20 <= 0x20 + flags <= 0x3D /\
  exists rest,
    trace (snd (lp_set_double_buffering_flags alsa ADDR flags m))
    = trace m ++ Write out [0xB0; 0x00; 0x20 + flags] :: rest /\
    writes rest = [].
Proof.
  intros Hout Hdoc. pose proof (documented_flags_bound flags Hdoc) as Hb.
  split; [lia |].
  destruct (lp_set_double_buffering_flags_message alsa m out flags Hout)
    as (rest & E & Hrest).
  exists rest. rewrite E. split; [| assumption].
  cbn [trace]. unfold uchar. rewrite Z.mod_small by lia.
  now rewrite (Z.add_comm flags).
Qed.

Lemma lp_set_double_buffering_flags_documented_witness :
  0x20 <= 0x20 + 20 <= 0x3D /\
  exists rest,
    trace (snd (lp_set_double_buffering_flags ideal ADDR 20 (opened 1)))
    = trace (opened 1) ++ Write 2 [0xB0; 0x00; 0x20 + 20] :: rest /\
    writes rest = [].
Proof.
  apply (lp_set_double_buffering_flags_documented ideal (opened 1) 2 20);
    reflexivity.
Defined.

(** X10. The sum [flags + 0x20] is cut to a byte: for a flag byte in
    0xE0..0xFF the third byte written is [flags - 0xE0]. *)
Theorem lp_set_double_buffering_flags_wraps
    (alsa : Alsa) (m : memory) (out : handle) (flags : Z) :
  midi_out (lp_obj m) = Some out ->
  0xE0 <= flags <= 0xFF ->
  exists rest,
    trace (snd (lp_set_double_buffering_flags alsa ADDR flags m))
    = trace m ++ Write out [0xB0; 0x00; flags - 0xE0] :: rest /\
    writes rest = [].
Proof.
  intros Hout Hb.
  destruct (lp_set_double_buffering_flags_message alsa m out flags Hout)
    as (rest & E & Hrest).
  exists rest. rewrite E. split; [| assumption].
  cbn [trace]. unfold uchar.
  replace (flags + 32) with (flags - 224 + 1 * 256) by lia.
  rewrite Z.mod_add by lia. rewrite Z.mod_small by lia. reflexivity.
Qed.

Lemma lp_set_double_buffering_flags_wraps_witness :
  exists rest,
    trace (snd (lp_set_double_buffering_flags ideal ADDR 0xE0 (opened 0)))
    = trace (opened 0) ++ Write 2 [0xB0; 0x00; 0xE0 - 0xE0] :: rest /\
    writes rest = [].
Proof.
  apply (lp_set_double_buffering_flags_wraps ideal (opened 0) 2 0xE0).
  - reflexivity.
  - lia.
Defined.

(** X11. [lp_enable_flashing] is [lp_set_double_buffering_flags] with
    FLASH alone, which names buffer 0 for display and for update;
    [lp_disable_flashing] is [lp_set_double_buffering_flags] with
    DISPLAY_1 alone, which displays buffer 1 and updates buffer 0.
    Neither touches [current_buff]. *)
Theorem flashing_as_flags (alsa : Alsa) (lp : pointer) (m : memory) :
  lp_enable_flashing alsa lp m
    = lp_set_double_buffering_flags alsa lp LP_DOUBLE_BUFFERING_FLASH m /\
  lp_disable_flashing alsa lp m
    = lp_set_double_buffering_flags alsa lp LP_DOUBLE_BUFFERING_DISPLAY_1 m /\
  display_buffer LP_DOUBLE_BUFFERING_FLASH = 0 /\
  update_buffer LP_DOUBLE_BUFFERING_FLASH = 0 /\
  display_buffer LP_DOUBLE_BUFFERING_DISPLAY_1 = 1 /\
  update_buffer LP_DOUBLE_BUFFERING_DISPLAY_1 = 0 /\
  current_buff (lp_obj (snd (lp_enable_flashing alsa lp m)))
    = current_buff (lp_obj m) /\
  current_buff (lp_obj (snd (lp_disable_flashing alsa lp m)))
    = current_buff (lp_obj m).
Proof.
  repeat split;
    destruct lp, m as [[mi [o |] cb] ev t]; try reflexivity;
    unfold lp_enable_flashing, lp_disable_flashing; run;
    split_tests; reflexivity.
Qed.

(** ** Notes on the wire *)

(** X12. A note made with [LP_NOTE] from NOTE_ON or NOTE_OFF, the key of
    a row in [0,7] and a column in [0,8] (the ninth is the round button of
    the row) and a colour of levels in [0,3] with any flags goes through
    [lp_set_note] unchanged by the conversions to bytes, as the well-formed
    MIDI message [state, 16*row + col, 16*green + red + flags]: a status
    byte with its top bit set, two data bytes below 0x80. *)
Theorem lp_set_note_well_formed
    (alsa : Alsa) (m : memory) (out : handle)
    (st row col green red flags : Z) :
  midi_out (lp_obj m) = Some out ->
  st = LP_NOTE_ON \/ st = LP_NOTE_OFF ->
  0 <= row <= 7 -> 0 <= col <= 8 ->
  0 <= green <= 3 -> 0 <= red <= 3 -> In flags color_flag_combinations ->
  0x80 <= st <= 0xFF /\
  0 <= 16 * row + col < 0x80 /\
  0 <= 16 * green + red + flags < 0x80 /\
  exists rest,
    trace (snd (lp_set_note alsa ADDR
                  (LP_NOTE st (LP_KEY row col) (LP_COLOR green red flags)) m))
    = trace m ++ Write out [st; 16 * row + col; 16 * green + red + flags]
                 :: rest /\
    writes rest = [].
Proof.
  intros Hout Hst Hr Hc Hg Hred Hf.
  assert (Hflags : 0 <= flags <= 12)
    by (destruct Hf as [<- | [<- | [<- | [<- | []]]]]; vm_compute;
        split; congruence).
  assert (Hs : 0x80 <= st <= 0xFF)
    by (destruct Hst as [-> | ->]; vm_compute; split; congruence).
  repeat split; try lia.
  destruct (lp_set_note_sends_note_msg alsa m out
              (LP_NOTE st (LP_KEY row col) (LP_COLOR green red flags)) Hout)
    as (rest & E & Hrest).
  exists rest. rewrite E. split; [| assumption].
  unfold note_msg, LP_NOTE, LP_KEY, LP_COLOR, uchar; cbn [state key color].
  rewrite !Z.mod_small by lia. reflexivity.
Qed.

Lemma lp_set_note_well_formed_witness :
  0x80 <= LP_NOTE_ON <= 0xFF /\
  0 <= 16 * 7 + 8 < 0x80 /\
  0 <= 16 * 3 + 3 + LP_COLOR_FLAG_COPY < 0x80 /\
  exists rest,
    trace (snd (lp_set_note ideal ADDR
                  (LP_NOTE LP_NOTE_ON (LP_KEY 7 8)
                           (LP_COLOR 3 3 LP_COLOR_FLAG_COPY)) (opened 0)))
    = trace (opened 0)
        ++ Write 2 [LP_NOTE_ON; 16 * 7 + 8; 16 * 3 + 3 + LP_COLOR_FLAG_COPY]
           :: rest /\
    writes rest = [].
Proof.
  apply (lp_set_note_well_formed ideal (opened 0) 2 LP_NOTE_ON 7 8 3 3
                                 LP_COLOR_FLAG_COPY).
  - reflexivity.
  - left. reflexivity.
  - lia.
  - lia.
  - lia.
  - lia.
  - simpl. auto.
Defined.

(** The byte at [3 * k + r] of the rows of a grid is the field [r] of the
    note [k]. *)
Lemma grid_msg_nth (notes : list LPNote) (k r : nat) :
  (k < length notes)%nat -> (r < 3)%nat ->
  nth (3 * k + r) (grid_msg notes) 0
  = nth r (note_msg (nth k notes {| state := 0; key := 0; color := 0 |})) 0.
Proof.
  revert k. induction notes as [| n notes IH]; intros k Hk Hr.
  - inversion Hk.
  - destruct k as [| k].
    + unfold grid_msg. cbn [flat_map note_msg app Nat.mul Nat.add nth].
      destruct r as [| [| [| r]]]; try reflexivity. lia.
    + cbn [length] in Hk.
      replace (3 * S k + r)%nat with (S (S (S (3 * k + r)))) by lia.
      unfold grid_msg. cbn [flat_map note_msg app nth].
      apply IH; lia.
Qed.

(** X13. [lp_set_notes] on an opened session, when the transport takes
    the 192 bytes and the drain succeeds, returns [LP_OK] after one write
    and one drain; the bytes written do not depend on what the stack held,
    and the three bytes at offset [3 * (i * 8 + j)] are the state, the key
    and the colour of [notes[i * 8 + j]], for every row [i] and column
    [j]. *)
Theorem lp_set_notes_layout
    (alsa : Alsa) (m : memory) (out : handle) (notes : list LPNote) :
  midi_out (lp_obj m) = Some out ->
  length notes = 64%nat ->
  snd_rawmidi_write alsa (trace m) out (grid_msg notes) = 192 ->
  0 <= snd_rawmidi_drain alsa (trace m ++ [Write out (grid_msg notes)]) out ->
  lp_set_notes alsa ADDR (Some notes) m
  = (LP_OK, {| lp_obj := lp_obj m; event_obj := event_obj m;
               trace := trace m ++ [Write out (grid_msg notes); Drain out] |}) /\
  (forall stack, length stack = 192%nat ->
     fill_msg_buff notes stack = grid_msg notes) /\
  forall i j, 0 <= i <= 7 -> 0 <= j <= 7 ->
    nth (Z.to_nat (3 * (i * 8 + j))) (grid_msg notes) 0
      = state (note_at notes (i * 8 + j)) /\
    nth (Z.to_nat (3 * (i * 8 + j) + 1)) (grid_msg notes) 0
      = key (note_at notes (i * 8 + j)) /\
    nth (Z.to_nat (3 * (i * 8 + j) + 2)) (grid_msg notes) 0
      = color (note_at notes (i * 8 + j)).
Proof.
  intros Hout Hlen Hw Hd. split; [| split].
  - change (lp_set_notes alsa ADDR (Some notes) m)
      with (run_command alsa ADDR (SetNotes notes) m).
    rewrite (run_command_opened alsa m out (SetNotes notes) Hout Hlen)
      by (cbn [message]; rewrite Hw; unfold ssize_range; lia).
    cbn [message expected]. rewrite Hw.
    change (192 =? 3 * LP_ROWS * LP_COLS) with true. cbv iota.
    apply Z.ltb_ge in Hd. rewrite Hd. reflexivity.
  - intros stack Hstack. now apply fill_msg_buff_layout.
  - intros i j Hi Hj. unfold note_at.
    replace (Z.to_nat (3 * (i * 8 + j)))
      with (3 * Z.to_nat (i * 8 + j) + 0)%nat by lia.
    replace (Z.to_nat (3 * (i * 8 + j) + 1))
      with (3 * Z.to_nat (i * 8 + j) + 1)%nat by lia.
    replace (Z.to_nat (3 * (i * 8 + j) + 2))
      with (3 * Z.to_nat (i * 8 + j) + 2)%nat by lia.
    rewrite !grid_msg_nth by lia. repeat split.
Qed.

Lemma lp_set_notes_layout_witness :
  lp_set_notes ideal ADDR (Some all_off) (opened 0)
  = (LP_OK, {| lp_obj := lp_obj (opened 0); event_obj := event_obj (opened 0);
               trace := trace (opened 0)
                          ++ [Write 2 (grid_msg all_off); Drain 2] |}) /\
  (forall stack, length stack = 192%nat ->
     fill_msg_buff all_off stack = grid_msg all_off) /\
  forall i j, 0 <= i <= 7 -> 0 <= j <= 7 ->
    nth (Z.to_nat (3 * (i * 8 + j))) (grid_msg all_off) 0
      = state (note_at all_off (i * 8 + j)) /\
    nth (Z.to_nat (3 * (i * 8 + j) + 1)) (grid_msg all_off) 0
      = key (note_at all_off (i * 8 + j)) /\
    nth (Z.to_nat (3 * (i * 8 + j) + 2)) (grid_msg all_off) 0
      = color (note_at all_off (i * 8 + j)).
Proof.
  apply (lp_set_notes_layout ideal (opened 0) 2 all_off).
  - reflexivity.
  - reflexivity.
  - reflexivity.
  - simpl. lia.
Defined.

(** ** Swapping, continued *)

(** X14. One [lp_swap_buffers] on an opened session, from any value of
    [current_buff] (an [LP] never initialised included): afterwards
    [current_buff] is 0 or 1, it is 1 exactly when it was 0, and the one
    message written displays the buffer [current_buff] now names, updates
    the other one and carries COPY. *)
Theorem lp_swap_buffers_establishes (alsa : Alsa) (m : memory) (out : handle) :
  midi_out (lp_obj m) = Some out ->
  let m1 := snd (lp_swap_buffers alsa ADDR m) in
  (current_buff (lp_obj m1) = 0 \/ current_buff (lp_obj m1) = 1) /\
  (current_buff (lp_obj m1) = 1 <-> current_buff (lp_obj m) = 0) /\
  exists flags rest,
    trace m1 = trace m ++ Write out [0xB0; 0x00; flags + 0x20] :: rest /\
    writes rest = [] /\
    display_buffer flags = current_buff (lp_obj m1) /\
    update_buffer flags = 1 - current_buff (lp_obj m1) /\
    copy_set flags = true.
Proof.
  intros Hout m1.
  destruct (lp_swap_buffers_step alsa m out Hout) as (rest & E & Hrest).
  fold m1 in E. rewrite E. cbn [lp_obj current_buff trace].
  destruct (Z.eqb_spec (current_buff (lp_obj m)) 0) as [E0 | N0].
  - split; [now right |]. split; [tauto |].
    eexists _, rest. repeat split. assumption.
  - split; [now left |]. split; [split; [discriminate | tauto] |].
    eexists _, rest. repeat split. assumption.
Qed.

Lemma lp_swap_buffers_establishes_witness :
  let m1 := snd (lp_swap_buffers ideal ADDR (opened 7)) in
  (current_buff (lp_obj m1) = 0 \/ current_buff (lp_obj m1) = 1) /\
  (current_buff (lp_obj m1) = 1 <-> current_buff (lp_obj (opened 7)) = 0) /\
  exists flags rest,
    trace m1 = trace (opened 7) ++ Write 2 [0xB0; 0x00; flags + 0x20] :: rest /\
    writes rest = [] /\
    display_buffer flags = current_buff (lp_obj m1) /\
    update_buffer flags = 1 - current_buff (lp_obj m1) /\
    copy_set flags = true.
Proof.
  apply (lp_swap_buffers_establishes ideal (opened 7) 2). reflexivity.
Defined.

(** The flag byte [lp_swap_buffers] sends from a given [current_buff]. *)
Lemma lp_swap_buffers_run (alsa : Alsa) (m : memory) (out : handle) :
  midi_out (lp_obj m) = Some out ->
  lp_swap_buffers alsa ADDR m
  = lp_set_double_buffering_flags alsa ADDR
      (if current_buff (lp_obj m) =? 0 then 17 else 20)
      {| lp_obj := {| midi_in := midi_in (lp_obj m); midi_out := Some out;
                      current_buff := if current_buff (lp_obj m) =? 0
                                      then 1 else 0 |};
         event_obj := event_obj m; trace := trace m |}.
Proof.
  intros Hout. destruct m as [[mi mo cb] ev t].
  cbn [lp_obj midi_out midi_in current_buff event_obj trace] in *. subst mo.
  unfold lp_swap_buffers.
  cbv [bind get_lp set_current_buff lp_obj midi_out midi_in current_buff
       event_obj trace].
  destruct (cb =? 0); reflexivity.
Qed.

(** X15. [lp_swap_buffers] changes [current_buff] before it sends: when
    the write of its message is short or fails, the function returns
    [LP_ERROR_MIDI_WRITE] and [current_buff] is swapped all the same. *)
Theorem lp_swap_buffers_failed_write (alsa : Alsa) (m : memory) (out : handle) :
  midi_out (lp_obj m) = Some out ->
  let flags := if current_buff (lp_obj m) =? 0
               then Z.lor (Z.lor LP_DOUBLE_BUFFERING_DISPLAY_1
                                 LP_DOUBLE_BUFFERING_UPDATE_0)
                          LP_DOUBLE_BUFFERING_COPY
               else Z.lor (Z.lor LP_DOUBLE_BUFFERING_DISPLAY_0
                                 LP_DOUBLE_BUFFERING_UPDATE_1)
                          LP_DOUBLE_BUFFERING_COPY in
  let w := snd_rawmidi_write alsa (trace m) out [0xB0; 0x00; flags + 0x20] in
  ssize_range w -> w <> 3 ->
  fst (lp_swap_buffers alsa ADDR m) = LP_ERROR_MIDI_WRITE /\
  current_buff (lp_obj (snd (lp_swap_buffers alsa ADDR m)))
    = (if current_buff (lp_obj m) =? 0 then 1 else 0) /\
  trace (snd (lp_swap_buffers alsa ADDR m))
    = trace m ++ [Write out [0xB0; 0x00; flags + 0x20]].
Proof.
  intros Hout flags w Hrange Hw.
  rewrite (lp_swap_buffers_run alsa m out Hout).
  match goal with
  | |- context [lp_set_double_buffering_flags alsa ADDR ?f ?m'] =>
      change (lp_set_double_buffering_flags alsa ADDR f m')
        with (run_command alsa ADDR (SetDoubleBufferingFlags f) m');
      assert (Hmsg : message (SetDoubleBufferingFlags f)
                     = [0xB0; 0x00; flags + 0x20])
        by (subst flags; destruct (current_buff (lp_obj m) =? 0); reflexivity);
      rewrite (run_command_opened alsa m' out (SetDoubleBufferingFlags f))
        by (reflexivity || exact I || (rewrite Hmsg; exact Hrange));
      rewrite Hmsg
  end.
  cbn [trace expected]. fold w.
  replace (w =? 3) with false by (symmetry; apply Z.eqb_neq; exact Hw).
  repeat split.
Qed.

Lemma lp_swap_buffers_failed_write_witness :
  let flags := if current_buff (lp_obj (opened 0)) =? 0
               then Z.lor (Z.lor LP_DOUBLE_BUFFERING_DISPLAY_1
                                 LP_DOUBLE_BUFFERING_UPDATE_0)
                          LP_DOUBLE_BUFFERING_COPY
               else Z.lor (Z.lor LP_DOUBLE_BUFFERING_DISPLAY_0
                                 LP_DOUBLE_BUFFERING_UPDATE_1)
                          LP_DOUBLE_BUFFERING_COPY in
  fst (lp_swap_buffers (writing (-32)) ADDR (opened 0)) = LP_ERROR_MIDI_WRITE /\
  current_buff (lp_obj (snd (lp_swap_buffers (writing (-32)) ADDR (opened 0))))
    = (if current_buff (lp_obj (opened 0)) =? 0 then 1 else 0) /\
  trace (snd (lp_swap_buffers (writing (-32)) ADDR (opened 0)))
    = trace (opened 0) ++ [Write 2 [0xB0; 0x00; flags + 0x20]].
Proof.
  apply (lp_swap_buffers_failed_write (writing (-32)) (opened 0) 2).
  - reflexivity.
  - unfold ssize_range. simpl. lia.
  - simpl. lia.
Defined.

(** ** Reading events, continued *)

(** The conversion to [int] lands in the range of [int] and leaves a
    value of that range alone. *)
Lemma to_int_range (z : Z) : int_range (to_int z).
Proof.
  unfold int_range, to_int.
  pose proof (Z.mod_pos_bound (z + 2 ^ 31) (2 ^ 32) ltac:(lia)). lia.
Qed.

Lemma to_int_small (z : Z) : int_range z -> to_int z = z.
Proof.
  unfold int_range, to_int. intros Hz.
  rewrite Z.mod_small by lia. lia.
Qed.

(** X16. [lp_check_event] on a session with an input channel makes one
    read of 3 bytes and keeps its result in the [int err] (the result
    itself when it fits an [int]).  It returns 1 exactly when [err] is 3,
    [LP_ERROR_MIDI_READ] exactly when [err] is negative and not -EAGAIN,
    and 0 when [err] is -EAGAIN or any other count (a short read); unless
    it returns 1, and always when the event pointer is null, the caller's
    event is as it was. *)
Theorem lp_check_event_result
    (alsa : Alsa) (m : memory) (inp : handle) (event : pointer) :
  midi_in (lp_obj m) = Some inp ->
  let result := fst (snd_rawmidi_read alsa (trace m) inp 3) in
  let err := to_int result in
  let rc := fst (lp_check_event alsa ADDR event m) in
  let m' := snd (lp_check_event alsa ADDR event m) in
  (int_range result -> err = result) /\
  (rc = 1 <-> err = 3) /\
  (rc = LP_ERROR_MIDI_READ <-> err < 0 /\ err <> - EAGAIN) /\
  (rc = 0 <-> err = - EAGAIN \/ (0 <= err /\ err <> 3)) /\
  trace m' = trace m ++ [Read inp 3] /\
  (rc <> 1 \/ event = NULL -> event_obj m' = event_obj m).
Proof.
  intros Hin result err rc m'. subst rc m'.
  split; [apply to_int_small |].
  destruct m as [[mi mo cb] ev t]. cbn [lp_obj midi_in trace] in *. subst mi.
  unfold lp_check_event. run. fold result. fold err.
  clearbody err. clear result.
  destruct (snd (snd_rawmidi_read alsa t inp 3)) as [| b0 buf]; cbn [fst snd];
    unfold EAGAIN, LP_ERROR_MIDI_READ; cbn [Z.opp];
    (destruct (Z.eqb_spec err (-11)); [| destruct (Z.ltb_spec err 0);
                                         [| destruct (Z.eqb_spec err 3)]];
     [ cbn [fst snd]; repeat split; intros; try discriminate; try lia; auto
     | cbn [fst snd]; repeat split; intros; try discriminate; try lia; auto
     | destruct event; cbn [andb];
       [| match goal with
          | |- context [byte_at ?b 0 =? 144] =>
              destruct (byte_at b 0 =? 144); [| destruct (byte_at b 0 =? 176)]
          end ];
       cbn [fst snd];
       (repeat split; intros; try discriminate; try lia; auto;
        match goal with
        | H : _ \/ _ |- _ => destruct H; congruence
        end)
     | cbn [fst snd]; repeat split; intros; try discriminate; try lia; auto ]).
Qed.

Lemma lp_check_event_result_witness :
  let result := fst (snd_rawmidi_read (reading 2 [0x90; 0x10; 0x00])
                                      (trace (opened 0)) 1 3) in
  let err := to_int result in
  let rc := fst (lp_check_event (reading 2 [0x90; 0x10; 0x00]) ADDR ADDR
                                (opened 0)) in
  let m' := snd (lp_check_event (reading 2 [0x90; 0x10; 0x00]) ADDR ADDR
                                (opened 0)) in
  (int_range result -> err = result) /\
  (rc = 1 <-> err = 3) /\
  (rc = LP_ERROR_MIDI_READ <-> err < 0 /\ err <> - EAGAIN) /\
  (rc = 0 <-> err = - EAGAIN \/ (0 <= err /\ err <> 3)) /\
  trace m' = trace (opened 0) ++ [Read 1 3] /\
  (rc <> 1 \/ ADDR = NULL -> event_obj m' = event_obj (opened 0)).
Proof.
  apply (lp_check_event_result (reading 2 [0x90; 0x10; 0x00]) (opened 0) 1 ADDR).
  reflexivity.
Defined.

(** The 0x90 branch on any key byte: the row is the high nibble, the
    column the low nibble reduced modulo 9. *)
Lemma lp_check_event_grid
    (alsa : Alsa) (m : memory) (inp : handle) (note velocity : Z) :
  midi_in (lp_obj m) = Some inp ->
  0 <= note <= 255 -> 0 <= velocity <= 255 ->
  snd_rawmidi_read alsa (trace m) inp 3 = (3, [0x90; note; velocity]) ->
  lp_check_event alsa ADDR ADDR m
  = (1, {| lp_obj := lp_obj m;
           event_obj := {| type := if velocity >? 0 then LP_EVENT_PRESSED
                                   else LP_EVENT_RELEASED;
                           note_x := (note mod 16) mod 9;
                           note_y := note / 16 |};
           trace := trace m ++ [Read inp 3] |}).
Proof.
  intros Hin Hn Hv Hread.
  destruct m as [[mi mo cb] ev t]. cbn [lp_obj midi_in trace] in *. subst mi.
  unfold lp_check_event. run. rewrite Hread. cbn [fst snd].
  unfold byte_at. cbn [nth]. change (uchar 144 =? 144) with true.
  unfold uchar. rewrite (Z.mod_small note), (Z.mod_small velocity) by lia.
  cbn [andb].
  pose proof (Z.div_mod note 16 ltac:(lia)) as Hdm.
  pose proof (Z.mod_pos_bound note 16 ltac:(lia)) as Hlow.
  assert (Hq : 0 <= note / 16 <= 15) by lia.
  rewrite Z.quot_div_nonneg by lia.
  replace (note - note / 16 * 16) with (note mod 16) by lia.
  rewrite Z.rem_mod_nonneg by lia.
  pose proof (Z.mod_pos_bound (note mod 16) 9 ltac:(lia)).
  rewrite (Z.mod_small (note / 16) 256),
          (Z.mod_small ((note mod 16) mod 9) 256) by lia.
  reflexivity.
Qed.

(** X17. A complete read of [0x90, 16*row + col, velocity] for a row in
    [0,7] and a column in [0,8], the ninth column being the round button
    of the row, gives the event with [note_x = col] and [note_y = row],
    PRESSED for a velocity above 0 and RELEASED for the velocity 0. *)
Theorem lp_check_event_decodes_nine_columns
    (alsa : Alsa) (m : memory) (inp : handle) (row col velocity : Z) :
  midi_in (lp_obj m) = Some inp ->
  0 <= row <= 7 -> 0 <= col <= 8 -> 0 <= velocity <= 255 ->
  snd_rawmidi_read alsa (trace m) inp 3 = (3, [0x90; LP_KEY row col; velocity]) ->
  fst (lp_check_event alsa ADDR ADDR m) = 1 /\
  event_obj (snd (lp_check_event alsa ADDR ADDR m))
  = {| type := if velocity =? 0 then LP_EVENT_RELEASED else LP_EVENT_PRESSED;
       note_x := col; note_y := row |}.
Proof.
  intros Hin Hr Hc Hv Hread.
  rewrite (lp_check_event_grid alsa m inp (LP_KEY row col) velocity Hin)
    by (unfold LP_KEY; lia || assumption).
  cbn [fst snd event_obj]. split; [reflexivity |].
  unfold LP_KEY.
  replace (16 * row + col) with (col + row * 16) by lia.
  rewrite Z.mod_add, Z.div_add by lia.
  rewrite (Z.mod_small col 16), (Z.mod_small col 9), (Z.div_small col 16) by lia.
  destruct (Z.eqb_spec velocity 0) as [-> | N]; [reflexivity |].
  replace (velocity >? 0) with true by (symmetry; apply Z.gtb_lt; lia).
  reflexivity.
Qed.

Lemma lp_check_event_decodes_nine_columns_witness :
  fst (lp_check_event (reading 3 [0x90; LP_KEY 7 8; 0]) ADDR ADDR (opened 0)) = 1 /\
  event_obj (snd (lp_check_event (reading 3 [0x90; LP_KEY 7 8; 0]) ADDR ADDR
                                 (opened 0)))
  = {| type := if 0 =? 0 then LP_EVENT_RELEASED else LP_EVENT_PRESSED;
       note_x := 8; note_y := 7 |}.
Proof.
  apply (lp_check_event_decodes_nine_columns
           (reading 3 [0x90; LP_KEY 7 8; 0]) (opened 0) 1 7 8 0);
    try lia; reflexivity.
Defined.

(** X18. The decoding is not injective on key bytes: a key whose low
    nibble [c] is in 9..15 gives the column [c - 9], the event of the key
    [16*row + c - 9] of the same row. *)
Theorem lp_check_event_aliases_low_nibble
    (alsa : Alsa) (m : memory) (inp : handle) (row c velocity : Z) :
  midi_in (lp_obj m) = Some inp ->
  0 <= row <= 15 -> 9 <= c <= 15 -> 0 <= velocity <= 255 ->
  snd_rawmidi_read alsa (trace m) inp 3 = (3, [0x90; 16 * row + c; velocity]) ->
  note_x (event_obj (snd (lp_check_event alsa ADDR ADDR m))) = c - 9 /\
  note_y (event_obj (snd (lp_check_event alsa ADDR ADDR m))) = row.
Proof.
  intros Hin Hr Hc Hv Hread.
  rewrite (lp_check_event_grid alsa m inp (16 * row + c) velocity Hin)
    by (lia || assumption).
  cbn [snd event_obj note_x note_y].
  replace (16 * row + c) with (c + row * 16) by lia.
  rewrite Z.mod_add, Z.div_add by lia.
  rewrite (Z.mod_small c 16), (Z.div_small c 16) by lia.
  split; [| lia].
  replace c with (c - 9 + 1 * 9) at 1 by lia.
  rewrite Z.mod_add by lia. apply Z.mod_small. lia.
Qed.

Lemma lp_check_event_aliases_low_nibble_witness :
  note_x (event_obj (snd (lp_check_event (reading 3 [0x90; 16 * 2 + 9; 127])
                                         ADDR ADDR (opened 0)))) = 9 - 9 /\
  note_y (event_obj (snd (lp_check_event (reading 3 [0x90; 16 * 2 + 9; 127])
                                         ADDR ADDR (opened 0)))) = 2.
Proof.
  apply (lp_check_event_aliases_low_nibble
           (reading 3 [0x90; 16 * 2 + 9; 127]) (opened 0) 1 2 9 127);
    try lia; reflexivity.
Defined.

(** The 0xB0 branch on any note byte. *)
Lemma lp_check_event_automap
    (alsa : Alsa) (m : memory) (inp : handle) (note velocity : Z) :
  midi_in (lp_obj m) = Some inp ->
  0 <= note <= 255 -> 0 <= velocity <= 255 ->
  snd_rawmidi_read alsa (trace m) inp 3 = (3, [0xB0; note; velocity]) ->
  lp_check_event alsa ADDR ADDR m
  = (1, {| lp_obj := lp_obj m;
           event_obj := {| type := if velocity >? 0 then LP_EVENT_AUTOMAP_PRESSED
                                   else LP_EVENT_AUTOMAP_RELEASED;
                           note_x := uchar (note - 0x68);
                           note_y := 0 |};
           trace := trace m ++ [Read inp 3] |}).
Proof.
  intros Hin Hn Hv Hread.
  destruct m as [[mi mo cb] ev t]. cbn [lp_obj midi_in trace] in *. subst mi.
  unfold lp_check_event. run. rewrite Hread. cbn [fst snd].
  unfold byte_at. cbn [nth].
  assert (Hnote : uchar note = note) by (apply Z.mod_small; lia).
  assert (Hvel : uchar velocity = velocity) by (apply Z.mod_small; lia).
  rewrite Hnote, Hvel. reflexivity.
Qed.

(** X19. A complete read of [0xB0, note, velocity] gives an automap
    event, PRESSED for a velocity above 0 and RELEASED for 0, with
    [note_y = 0] and [note_x = note - 0x68] cut to a byte: a button index
    in [0,7] exactly for the notes 0x68..0x6F, and [note + 152] for a note
    below 0x68. *)
Theorem lp_check_event_decodes_automap
    (alsa : Alsa) (m : memory) (inp : handle) (note velocity : Z) :
  midi_in (lp_obj m) = Some inp ->
  0 <= note <= 255 -> 0 <= velocity <= 255 ->
  snd_rawmidi_read alsa (trace m) inp 3 = (3, [0xB0; note; velocity]) ->
  let e := event_obj (snd (lp_check_event alsa ADDR ADDR m)) in
  fst (lp_check_event alsa ADDR ADDR m) = 1 /\
  type e = (if velocity =? 0 then LP_EVENT_AUTOMAP_RELEASED
            else LP_EVENT_AUTOMAP_PRESSED) /\
  note_y e = 0 /\
  note_x e = (if note <? 0x68 then note + 152 else note - 0x68) /\
  (0 <= note_x e <= 7 <-> 0x68 <= note <= 0x6F).
Proof.
  intros Hin Hn Hv Hread e. subst e.
  rewrite (lp_check_event_automap alsa m inp note velocity Hin Hn Hv Hread).
  cbn [fst snd event_obj type note_x note_y].
  assert (Hx : uchar (note - 0x68)
               = if note <? 0x68 then note + 152 else note - 0x68).
  { unfold uchar. destruct (Z.ltb_spec note 0x68).
    - replace (note - 0x68) with (note + 152 + (-1) * 256) by lia.
      rewrite Z.mod_add by lia. apply Z.mod_small. lia.
    - apply Z.mod_small. lia. }
  rewrite Hx.
  split; [reflexivity |]. split.
  { destruct (Z.eqb_spec velocity 0) as [-> | N]; [reflexivity |].
    replace (velocity >? 0) with true by (symmetry; apply Z.gtb_lt; lia).
    reflexivity. }
  split; [reflexivity |]. split; [reflexivity |].
  destruct (Z.ltb_spec note 0x68); lia.
Qed.

Lemma lp_check_event_decodes_automap_witness :
  let e := event_obj (snd (lp_check_event (reading 3 [0xB0; 0x6F; 127])
                                          ADDR ADDR (opened 0))) in
  fst (lp_check_event (reading 3 [0xB0; 0x6F; 127]) ADDR ADDR (opened 0)) = 1 /\
  type e = (if 127 =? 0 then LP_EVENT_AUTOMAP_RELEASED
            else LP_EVENT_AUTOMAP_PRESSED) /\
  note_y e = 0 /\
  note_x e = (if 0x6F <? 0x68 then 0x6F + 152 else 0x6F - 0x68) /\
  (0 <= note_x e <= 7 <-> 0x68 <= 0x6F <= 0x6F).
Proof.
  apply (lp_check_event_decodes_automap
           (reading 3 [0xB0; 0x6F; 127]) (opened 0) 1 0x6F 127);
    try lia; reflexivity.
Defined.

(** * The demo's grid *)

Lemma note_store_length (notes : list LPNote) (k : Z) (v : LPNote) :
  0 <= k < Z.of_nat (length notes) ->
  length (note_store notes k v) = length notes.
Proof.
  intros Hk. unfold note_store.
  rewrite length_app. cbn [length].
  rewrite length_firstn, length_skipn. lia.
Qed.

Lemma note_at_store (notes : list LPNote) (k k' : Z) (v : LPNote) :
  0 <= k < Z.of_nat (length notes) -> 0 <= k' ->
  note_at (note_store notes k v) k'
  = if k' =? k then v else note_at notes k'.
Proof.
  intros Hk Hk'. unfold note_at, note_store.
  set (d := {| state := 0; key := 0; color := 0 |}).
  assert (Hlen : length (firstn (Z.to_nat k) notes) = Z.to_nat k)
    by (rewrite length_firstn; lia).
  destruct (Z.eqb_spec k' k) as [-> | N].
  - rewrite app_nth2 by lia. rewrite Hlen, Nat.sub_diag. reflexivity.
  - destruct (Z.lt_ge_cases k' k) as [Hlt | Hge].
    + rewrite app_nth1 by lia. rewrite nth_firstn.
      replace (Z.to_nat k' <? Z.to_nat k)%nat with true
        by (symmetry; apply Nat.ltb_lt; lia).
      reflexivity.
    + rewrite app_nth2 by lia. rewrite Hlen.
      replace (Z.to_nat k' - Z.to_nat k)%nat
        with (S (Z.to_nat k' - S (Z.to_nat k))) by lia.
      cbn [nth]. rewrite nth_skipn. f_equal. lia.
Qed.

(** The two loops of the demo with any note [v i j] for the cell
    [(i, j)]: the 64 cells are written once each, in row-major order. *)
Lemma fill_loops (v : Z -> Z -> LPNote) (notes : list LPNote) :
  length notes = 64%nat ->
  for_range 0 LP_ROWS (fun i notes =>
    for_range 0 LP_COLS (fun j notes =>
      note_store notes (i * LP_ROWS + j) (v i j)) notes) notes
  = flat_map (fun i => map (v i) [0; 1; 2; 3; 4; 5; 6; 7])
             [0; 1; 2; 3; 4; 5; 6; 7].
Proof.
  intros Hn.
  do 64 (destruct notes as [| ? notes]; [discriminate Hn |]).
  destruct notes; [| discriminate Hn].
  reflexivity.
Qed.

(** X20. The loops that set up the grid in the demo and the tests
    overwrite the 64 notes of any array: the note at [i * 8 + j] becomes
    [LP_NOTE(state, LP_KEY(i, j), color)], so index and key agree on
    every cell. *)
Theorem fill_notes_keyed (st col : Z) (notes : list LPNote) :
  length notes = 64%nat ->
  keyed (fill_notes st col notes) /\
  forall i j, 0 <= i <= 7 -> 0 <= j <= 7 ->
    note_at (fill_notes st col notes) (i * 8 + j)
    = LP_NOTE st (LP_KEY i j) col.
Proof.
  intros Hn. unfold fill_notes.
  rewrite (fill_loops (fun i j => LP_NOTE st (LP_KEY i j) col) notes Hn).
  assert (Hat : forall i j, 0 <= i <= 7 -> 0 <= j <= 7 ->
            note_at (flat_map (fun i => map (fun j => LP_NOTE st (LP_KEY i j) col)
                                            [0; 1; 2; 3; 4; 5; 6; 7])
                              [0; 1; 2; 3; 4; 5; 6; 7]) (i * 8 + j)
            = LP_NOTE st (LP_KEY i j) col)
    by (intros i j Hi Hj; split_0_7 i; split_0_7 j; reflexivity).
  split; [split |].
  - reflexivity.
  - intros i j Hi Hj. rewrite Hat by assumption.
    cbn [LP_NOTE key]. apply Z.mod_small. unfold LP_KEY. lia.
  - exact Hat.
Qed.

Lemma fill_notes_keyed_witness :
  keyed (fill_notes LP_NOTE_OFF 0 all_off) /\
  forall i j, 0 <= i <= 7 -> 0 <= j <= 7 ->
    note_at (fill_notes LP_NOTE_OFF 0 all_off) (i * 8 + j)
    = LP_NOTE LP_NOTE_OFF (LP_KEY i j) 0.
Proof. apply (fill_notes_keyed LP_NOTE_OFF 0 all_off). reflexivity. Defined.

(** X21. The generation of a note in the demo, for any [unsigned int]
    random number, stores inside the array and keeps index and key in
    agreement: the note written at [random_row * 8 + random_col] carries
    the key of that row and column, and no other note changes. *)
Theorem spawn_keeps_keyed (random : Z) (notes : list LPNote) :
  0 <= random < 2 ^ 32 ->
  keyed notes ->
  let row := random mod 8 in
  let col := (random / 8) mod 8 in
  0 <= row * 8 + col < 64 /\
  keyed (spawn random notes) /\
  note_at (spawn random notes) (row * 8 + col)
    = LP_NOTE LP_NOTE_ON (LP_KEY row col) LP_COLOR_GREEN_FULL /\
  forall k, 0 <= k -> k <> row * 8 + col ->
    note_at (spawn random notes) k = note_at notes k.
Proof.
  intros Hrandom [Hlen Hkey] row col.
  assert (Hrow : 0 <= row <= 7)
    by (pose proof (Z.mod_pos_bound random 8 ltac:(lia)); subst row; lia).
  assert (Hcol : 0 <= col <= 7)
    by (pose proof (Z.mod_pos_bound (random / 8) 8 ltac:(lia)); subst col; lia).
  assert (Hidx : 0 <= row * 8 + col < Z.of_nat (length notes))
    by (rewrite Hlen; lia).
  unfold spawn. fold row col. change LP_COLS with 8.
  split; [lia |]. split; [split |]; [| | split].
  - rewrite note_store_length by assumption. exact Hlen.
  - intros i j Hi Hj. rewrite note_at_store by lia.
    destruct (Z.eqb_spec (i * 8 + j) (row * 8 + col)) as [E | N].
    + assert (i = row /\ j = col) as [-> ->] by lia.
      cbn [LP_NOTE key]. apply Z.mod_small. unfold LP_KEY. lia.
    + now apply Hkey.
  - rewrite note_at_store by lia. now rewrite Z.eqb_refl.
  - intros k Hk Hne. rewrite note_at_store by lia.
    destruct (Z.eqb_spec k (row * 8 + col)); [contradiction | reflexivity].
Qed.

Lemma spawn_keeps_keyed_witness :
  let row := 1337 mod 8 in
  let col := (1337 / 8) mod 8 in
  0 <= row * 8 + col < 64 /\
  keyed (spawn 1337 (fill_notes LP_NOTE_OFF 0 all_off)) /\
  note_at (spawn 1337 (fill_notes LP_NOTE_OFF 0 all_off)) (row * 8 + col)
    = LP_NOTE LP_NOTE_ON (LP_KEY row col) LP_COLOR_GREEN_FULL /\
  forall k, 0 <= k -> k <> row * 8 + col ->
    note_at (spawn 1337 (fill_notes LP_NOTE_OFF 0 all_off)) k
    = note_at (fill_notes LP_NOTE_OFF 0 all_off) k.
Proof.
  apply (spawn_keeps_keyed 1337 (fill_notes LP_NOTE_OFF 0 all_off)).
  - lia.
  - split; [reflexivity |].
    intros i j Hi Hj. split_0_7 i; split_0_7 j; reflexivity.
Defined.

(** X22. In the demo, a press of the grid button of row [row] and column
    [col], both in [0,7], delivered by a complete read, is taken to the
    note of the array that carries the key of that button: the index
    [event.note_y * LP_ROWS + event.note_x] is [row * 8 + col], inside the
    array. *)
Theorem hit_index_finds_key
    (alsa : Alsa) (m : memory) (inp : handle) (notes : list LPNote)
    (row col velocity : Z) :
  midi_in (lp_obj m) = Some inp ->
  keyed notes ->
  0 <= row <= 7 -> 0 <= col <= 7 -> 1 <= velocity <= 255 ->
  snd_rawmidi_read alsa (trace m) inp 3 = (3, [0x90; LP_KEY row col; velocity]) ->
  let e := event_obj (snd (lp_check_event alsa ADDR ADDR m)) in
  0 < fst (lp_check_event alsa ADDR ADDR m) /\
  type e = LP_EVENT_PRESSED /\
  hit_index e = row * 8 + col /\
  0 <= hit_index e < Z.of_nat (length notes) /\
  key (note_at notes (hit_index e)) = LP_KEY row col.
Proof.
  intros Hin [Hlen Hkey] Hr Hc Hv Hread e. subst e.
  rewrite (lp_check_event_grid alsa m inp (LP_KEY row col) velocity Hin)
    by (unfold LP_KEY; lia || assumption).
  cbn [fst snd event_obj]. unfold hit_index. cbn [type note_x note_y].
  rewrite LP_KEY_row, LP_KEY_col by lia.
  rewrite (Z.mod_small col 9) by lia.
  change LP_ROWS with 8.
  replace (velocity >? 0) with true by (symmetry; apply Z.gtb_lt; lia).
  rewrite Hlen.
  split; [lia |]. split; [reflexivity |]. split; [reflexivity |].
  split; [lia |]. now apply Hkey.
Qed.

Lemma hit_index_finds_key_witness :
  let e := event_obj (snd (lp_check_event (reading 3 [0x90; LP_KEY 7 7; 127])
                                          ADDR ADDR (opened 0))) in
  0 < fst (lp_check_event (reading 3 [0x90; LP_KEY 7 7; 127]) ADDR ADDR
                          (opened 0)) /\
  type e = LP_EVENT_PRESSED /\
  hit_index e = 7 * 8 + 7 /\
  0 <= hit_index e < Z.of_nat (length all_off) /\
  key (note_at all_off (hit_index e)) = LP_KEY 7 7.
Proof.
  apply (hit_index_finds_key (reading 3 [0x90; LP_KEY 7 7; 127]) (opened 0) 1
                             all_off 7 7 127); try lia; try reflexivity.
  split; [reflexivity |].
  intros i j Hi Hj. split_0_7 i; split_0_7 j; reflexivity.
Defined.

(** X23. In the demo, a press of the round button at the end of row
    [row] (key [16*row + 8]) is decoded with [note_x = 8], so the index
    [event.note_y * LP_ROWS + event.note_x] is [(row + 1) * 8]: for a row
    below 7 the note of the first button of the next row, for row 7 the
    index 64, one past the last note of the array. *)
Theorem hit_index_of_round_button
    (alsa : Alsa) (m : memory) (inp : handle) (notes : list LPNote)
    (row velocity : Z) :
  midi_in (lp_obj m) = Some inp ->
  keyed notes ->
  0 <= row <= 7 -> 1 <= velocity <= 255 ->
  snd_rawmidi_read alsa (trace m) inp 3 = (3, [0x90; LP_KEY row 8; velocity]) ->
  let e := event_obj (snd (lp_check_event alsa ADDR ADDR m)) in
  0 < fst (lp_check_event alsa ADDR ADDR m) /\
  type e = LP_EVENT_PRESSED /\
  hit_index e = (row + 1) * 8 /\
  (row < 7 -> key (note_at notes (hit_index e)) = LP_KEY (row + 1) 0) /\
  (row = 7 -> hit_index e = Z.of_nat (length notes)).
Proof.
  intros Hin [Hlen Hkey] Hr Hv Hread e. subst e.
  rewrite (lp_check_event_grid alsa m inp (LP_KEY row 8) velocity Hin)
    by (unfold LP_KEY; lia || assumption).
  cbn [fst snd event_obj]. unfold hit_index. cbn [type note_x note_y].
  assert (Hlow : LP_KEY row 8 mod 16 = 8).
  { unfold LP_KEY. rewrite Z.add_comm, Z.mul_comm, Z.mod_add by lia.
    reflexivity. }
  assert (Hhigh : LP_KEY row 8 / 16 = row).
  { unfold LP_KEY. rewrite Z.mul_comm, Z.div_add_l by lia.
    change (8 / 16) with 0. lia. }
  rewrite Hlow, Hhigh. change (8 mod 9) with 8. change LP_ROWS with 8.
  replace (velocity >? 0) with true by (symmetry; apply Z.gtb_lt; lia).
  rewrite Hlen.
  split; [lia |]. split; [reflexivity |]. split; [lia |]. split.
  - intros Hlt. replace (row * 8 + 8) with ((row + 1) * 8 + 0) by lia.
    apply Hkey; lia.
  - intros ->. reflexivity.
Qed.

Lemma hit_index_of_round_button_witness :
  let e := event_obj (snd (lp_check_event (reading 3 [0x90; LP_KEY 7 8; 127])
                                          ADDR ADDR (opened 0))) in
  0 < fst (lp_check_event (reading 3 [0x90; LP_KEY 7 8; 127]) ADDR ADDR
                          (opened 0)) /\
  type e = LP_EVENT_PRESSED /\
  hit_index e = (7 + 1) * 8 /\
  (7 < 7 -> key (note_at all_off (hit_index e)) = LP_KEY (7 + 1) 0) /\
  (7 = 7 -> hit_index e = Z.of_nat (length all_off)).
Proof.
  apply (hit_index_of_round_button (reading 3 [0x90; LP_KEY 7 8; 127])
                                   (opened 0) 1 all_off 7 127);
    try lia; try reflexivity.
  split; [reflexivity |].
  intros i j Hi Hj. split_0_7 i; split_0_7 j; reflexivity.
Defined.
